(** * The structured-pruning mask lifecycle of [base_pruner.py]

    A shallow embedding of
    [torch/ao/sparsity/experimental/pruner/base_pruner.py]: the path
    resolver ([_module_to_fqn], [_fqn_to_module]), the group registry and
    auto-discovery of [prepare], the mask attachment of [_prepare], the
    finalisation of [squash_mask] and the update cycle of [step].

    Modules are Python objects: they live in a store, are named by their
    address, and are mutated in place.  Exceptions are results of an
    error type; the two recursive traversals take fuel. *)

From Stdlib Require Import ZArith Lia Ascii String.
From stdpp Require Import base option list strings gmap.

Open Scope Z_scope.
Open Scope nat_scope.
Open Scope string_scope.
Open Scope list_scope.

(** ** Python values and exceptions *)

Abbreviation addr := nat.

(** The exceptions this file can raise, by class. *)
Inductive PyExc :=
| NotImplementedError
| AttributeError
| KeyError
| ValueError
| TypeError
| IndexError.

Inductive Result (A : Type) :=
| Ok (a : A)
| Raise (e : PyExc).
Arguments Ok {A} a.
Arguments Raise {A} e.

#[export] Instance Result_ret : MRet Result := fun A a => Ok a.
#[export] Instance Result_bind : MBind Result := fun A B f r =>
  match r with
  | Ok a => f a
  | Raise e => Raise e
  end.

(** A Python [for x in l: body], the body threading a state and able to raise. *)
Fixpoint for_each {S A : Type} (body : S -> A -> Result S) (l : list A) (s : S)
  : Result S :=
  match l with
  | [] => Ok s
  | x :: l' =>
      match body s x with
      | Ok s' => for_each body l' s'
      | Raise e => Raise e
      end
  end.

(** Module classes.  [Linear], [Conv2d] and [BatchNorm2d] are the classes the
    three tables of the file name; [OtherModule] is any other base class of
    the host library or of the user, [Subclass] a class derived from another. *)
Inductive PyType :=
| Linear
| Conv2d
| BatchNorm2d
| OtherModule (name : string)
| Subclass (name : string) (base : PyType).

#[export] Instance PyType_eq_dec : EqDecision PyType.
Proof. solve_decision. Defined.

(** The method resolution order of a (singly inherited) class: itself, then
    its bases. *)
Fixpoint mro (t : PyType) : list PyType :=
  t :: match t with
       | Subclass _ base => mro base
       | _ => []
       end.

Definition SUPPORTED_MODULES : list PyType := [Linear; Conv2d; BatchNorm2d].
Definition NEEDS_MANUAL_UPDATE : list PyType := [BatchNorm2d].
Definition NEEDS_ZEROS : list PyType := [BatchNorm2d].

(** Tensors, as far as this file looks at them: [torch.tensor(k)] of a Python
    int [k] is a zero-dimensional tensor holding [k]; any other tensor is cut
    along its leading (output-unit) axis into one slice per unit.  The stored
    scalars are never computed with here, only copied, removed or zeroed. *)
Inductive Tensor :=
| Scalar (v : Z)
| Units (rows : list (list Z)).

#[export] Instance Tensor_eq_dec : EqDecision Tensor.
Proof. solve_decision. Defined.

Definition torch_tensor (k : Z) : Tensor := Scalar k.

(** [t.shape[0]]: the shape of a zero-dimensional tensor is the empty tuple. *)
Definition shape0 (t : Tensor) : Result Z :=
  match t with
  | Scalar _ => Raise IndexError
  | Units rows => Ok (Z.of_nat (length rows))
  end.

(** [nn.Parameter(t)]: [requires_grad] defaults to [True]. *)
Record NNParameter := { data : Tensor; requires_grad : bool }.

Definition nn_Parameter (t : Tensor) : NNParameter :=
  {| data := t; requires_grad := true |}.

(** [t.detach()]: the same values, cut from the autograd graph. *)
Definition detach (t : Tensor) : Tensor := t.

(** The two transform classes of [parametrization.py]. *)
Inductive ParamClass :=
| PruningParametrization
| ZeroesParametrization.

#[export] Instance ParamClass_eq_dec : EqDecision ParamClass.
Proof. solve_decision. Defined.

(** A transform object: built from the mask, it carries the set of pruned
    output units that [manual_mask_update] grows. *)
Record Transform := {
  t_cls : ParamClass;
  original_outputs : Tensor;
  pruned_outputs : gset nat;
}.

(** Forward hooks; both close over a transform object (by address). *)
Inductive Hook :=
| ActivationReconstruction (tr : addr)
| BiasHook (tr : addr) (prune_bias : bool).

Inductive Value :=
| VNone
| VModule (a : addr)
| VTensor (t : Tensor)
| VStr (s : string)
| VInt (z : Z)
| VParametrization (c : ParamClass).

#[export] Instance Value_eq_dec : EqDecision Value.
Proof. solve_decision. Defined.

(** ** Modules and the object store *)

(** An [nn.Module]: its class, its three attribute namespaces (a name bound
    to [None] is present), the transform chain registered on [weight]
    ([module.parametrizations.weight], by address) and its forward hooks. *)
Record Module := {
  cls : PyType;
  _parameters : gmap string (option NNParameter);
  _buffers : gmap string (option Tensor);
  _modules : list (string * option addr);
  parametrizations_weight : list addr;
  _forward_hooks : list Hook;
}.

(** The store: modules by address, transform objects by allocation index. *)
Record Heap := {
  mods : gmap addr Module;
  trans : list Transform;
}.

Definition set_mod (h : Heap) (a : addr) (m : Module) : Heap :=
  {| mods := <[a := m]> (mods h); trans := trans h |}.

(** First binding of a key in an ordered dictionary. *)
Fixpoint assoc {V : Type} (k : string) (l : list (string * V)) : option V :=
  match l with
  | [] => None
  | (k', v) :: l' => if decide (k' = k) then Some v else assoc k l'
  end.

(** [Module.named_children()]: the bound children in declaration order,
    skipping [None] and any module object already yielded. *)
Fixpoint named_children_from (memo : list addr) (cs : list (string * option addr))
  : list (string * addr) :=
  match cs with
  | [] => []
  | (_, None) :: cs' => named_children_from memo cs'
  | (name, Some c) :: cs' =>
      if decide (c ∈ memo) then named_children_from memo cs'
      else (name, c) :: named_children_from (c :: memo) cs'
  end.

Definition named_children (h : Heap) (a : addr) : list (string * addr) :=
  match mods h !! a with
  | Some m => named_children_from [] (_modules m)
  | None => []
  end.

(** Modelled from the spec: the transform classes live in
    [parametrization.py], which is not part of the sources at hand.  The
    structural transform physically removes the pruned units, shrinking the
    output dimension; the zeroing transform zeroes them and keeps the shape. *)
Fixpoint remove_units (pruned : gset nat) (i : nat) (rows : list (list Z))
  : list (list Z) :=
  match rows with
  | [] => []
  | r :: rows' =>
      if decide (i ∈ pruned) then remove_units pruned (S i) rows'
      else r :: remove_units pruned (S i) rows'
  end.

Fixpoint zero_units (pruned : gset nat) (i : nat) (rows : list (list Z))
  : list (list Z) :=
  match rows with
  | [] => []
  | r :: rows' =>
      (if decide (i ∈ pruned) then map (fun _ => 0%Z) r else r)
        :: zero_units pruned (S i) rows'
  end.

Definition forward (t : Transform) (w : Tensor) : Tensor :=
  match w with
  | Scalar v => Scalar v
  | Units rows =>
      match t_cls t with
      | PruningParametrization => Units (remove_units (pruned_outputs t) 0 rows)
      | ZeroesParametrization => Units (zero_units (pruned_outputs t) 0 rows)
      end
  end.

(** The value of a weight under its chain of transforms, first registered
    first applied; a dangling transform address leaves the value as it is. *)
Fixpoint apply_chain (ts : list Transform) (chain : list addr) (w : Tensor) : Tensor :=
  match chain with
  | [] => w
  | t :: chain' =>
      apply_chain ts chain'
        (match ts !! t with Some tr => forward tr w | None => w end)
  end.

(** What reading tensor attribute [name] of [m] gives: [weight] is seen
    through the transform chain. *)
Definition through_chain (h : Heap) (m : Module) (name : string) (t : Tensor) : Tensor :=
  if decide (name = "weight") then apply_chain (trans h) (parametrizations_weight m) t
  else t.

(** [Module.__getattr__]: parameters, then buffers, then child modules.
    [None] when the name is bound nowhere. *)
Definition lookup_attr (h : Heap) (m : Module) (name : string) : option Value :=
  match _parameters m !! name with
  | Some (Some p) => Some (VTensor (through_chain h m name (data p)))
  | Some None => Some VNone
  | None =>
      match _buffers m !! name with
      | Some (Some t) => Some (VTensor (through_chain h m name t))
      | Some None => Some VNone
      | None =>
          match assoc name (_modules m) with
          | Some (Some c) => Some (VModule c)
          | Some None => Some VNone
          | None => None
          end
      end
  end.

(** [getattr(v, name)], raising [AttributeError] when the name is unbound.
    Only module objects have attributes of interest here. *)
Definition getattr (h : Heap) (v : Value) (name : string) : Result Value :=
  match v with
  | VModule a =>
      match mods h !! a with
      | Some m =>
          match lookup_attr h m name with
          | Some x => Ok x
          | None => Raise AttributeError
          end
      | None => Raise AttributeError
      end
  | _ => Raise AttributeError
  end.

(** [getattr(v, name, None)]. *)
Definition getattr_default (h : Heap) (v : Value) (name : string) : Value :=
  match getattr h v name with
  | Ok x => x
  | Raise _ => VNone
  end.

Definition hasattr (h : Heap) (v : Value) (name : string) : bool :=
  match getattr h v name with
  | Ok _ => true
  | Raise _ => false
  end.

(** ** Strings: [str.split('.')] *)

Definition dot : ascii := "."%char.

Fixpoint split (sep : ascii) (s : string) : list string :=
  match s with
  | EmptyString => [EmptyString]
  | String c s' =>
      if decide (c = sep) then EmptyString :: split sep s'
      else match split sep s' with
           | [] => [String c EmptyString]
           | w :: ws => String c w :: ws
           end
  end.

(** ** Path resolver *)

(** The [for name, child in model.named_children()] loop of
    [_module_to_fqn]; [rec] is the recursive call.  The outer [option] is
    fuel, the inner one Python's [None]. *)
Fixpoint fqn_loop (rec : addr -> string -> option (option string))
    (layer : Value) (prefix : string) (cs : list (string * addr))
  : option (option string) :=
  match cs with
  | [] => Some None
  | (name, child) :: cs' =>
      let new_name := prefix +:+ "." +:+ name in
      if decide (VModule child = layer) then Some (Some new_name)
      else match rec child new_name with
           | None => None
           | Some (Some child_path) => Some (Some child_path)
           | Some None => fqn_loop rec layer prefix cs'
           end
  end.

Fixpoint _module_to_fqn (fuel : nat) (h : Heap) (model : addr) (layer : Value)
    (prefix : string) : option (option string) :=
  match fuel with
  | 0 => None
  | S fuel' =>
      fqn_loop (fun child new_name => _module_to_fqn fuel' h child layer new_name)
        layer prefix (named_children h model)
  end.

(** The [for name in path] loop of [_fqn_to_module]. *)
Fixpoint fqn_walk (h : Heap) (model : Value) (path : list string) : Value :=
  match path with
  | [] => model
  | name :: path' =>
      match getattr_default h model name with
      | VNone => VNone
      | model' => fqn_walk h model' path'
      end
  end.

(** [path.split('.')] on [None] raises [AttributeError]. *)
Definition _fqn_to_module (h : Heap) (model : Value) (path : option string)
  : Result Value :=
  match path with
  | None => Raise AttributeError
  | Some p => Ok (fqn_walk h model (split dot p))
  end.

(** The normalisation [prepare] applies to a resolved path:
    [if module_fqn and module_fqn[0] == '.': module_fqn = module_fqn[1:]]. *)
Definition strip_leading_dot (fqn : option string) : option string :=
  match fqn with
  | Some (String c rest) => if decide (c = dot) then Some rest else fqn
  | _ => fqn
  end.

(** ** The pruner object *)

Inductive ConfigEntry :=
| EModule (a : addr)
| EDict (d : gmap string Value).

(** A removable hook handle: the module and the position of the hook. *)
Definition Handle : Type := addr * nat.

(** [self]: [model], [config] and [prune_bias] are unset until [prepare]. *)
Record BasePruner := {
  defaults : gmap string Value;
  module_groups : list (gmap string Value);
  enable_mask_update : bool;
  model : option addr;
  config : option (list ConfigEntry);
  prune_bias : option bool;
  activation_handles : list Handle;
  bias_handles : list Handle;
}.

(** [BasePruner.__init__(defaults)]. *)
Definition __init__ (dflt : option (gmap string Value)) : BasePruner :=
  {| defaults := default ∅ dflt;
     module_groups := [];
     enable_mask_update := true;
     model := None;
     config := None;
     prune_bias := None;
     activation_handles := [];
     bias_handles := [] |}.

(** What the outside sees happen: warnings, and the calls of the abstract
    [update_mask] with their arguments. *)
Inductive Event :=
| WarnMustProvide (t : PyType)
| WarnManualUpdate (t : PyType)
| UpdateMaskCall (module : Value) (kwargs : gmap string Value).

Record State := {
  heap : Heap;
  self : BasePruner;
  events : list Event;
}.

(** The abstract method: a concrete pruner supplies it.  It receives the
    module and the group's entries as keywords, and acts on the objects. *)
Class Policy := {
  update_mask : Value -> gmap string Value -> Heap -> Result Heap;
}.

(** ** Classes of values *)

Definition type_of (h : Heap) (v : Value) : option PyType :=
  match v with
  | VModule a => cls <$> mods h !! a
  | _ => None
  end.

(** [type(v) in kinds]: the exact class. *)
Definition type_in (h : Heap) (v : Value) (kinds : list PyType) : bool :=
  match type_of h v with
  | Some t => bool_decide (t ∈ kinds)
  | None => false
  end.

(** [isinstance(v, tuple(kinds))]: the class or one of its bases. *)
Definition isinstance (h : Heap) (v : Value) (kinds : list PyType) : bool :=
  match type_of h v with
  | Some t => existsb (fun k => bool_decide (k ∈ mro t)) kinds
  | None => false
  end.

(** ** Host primitives on modules *)

Definition with_parameters (m : Module) (p : gmap string (option NNParameter)) : Module :=
  {| cls := cls m; _parameters := p; _buffers := _buffers m; _modules := _modules m;
     parametrizations_weight := parametrizations_weight m;
     _forward_hooks := _forward_hooks m |}.

Definition with_buffers (m : Module) (b : gmap string (option Tensor)) : Module :=
  {| cls := cls m; _parameters := _parameters m; _buffers := b; _modules := _modules m;
     parametrizations_weight := parametrizations_weight m;
     _forward_hooks := _forward_hooks m |}.

Definition with_modules (m : Module) (c : list (string * option addr)) : Module :=
  {| cls := cls m; _parameters := _parameters m; _buffers := _buffers m; _modules := c;
     parametrizations_weight := parametrizations_weight m;
     _forward_hooks := _forward_hooks m |}.

Definition with_chain (m : Module) (c : list addr) : Module :=
  {| cls := cls m; _parameters := _parameters m; _buffers := _buffers m;
     _modules := _modules m; parametrizations_weight := c;
     _forward_hooks := _forward_hooks m |}.

Definition with_hooks (m : Module) (hk : list Hook) : Module :=
  {| cls := cls m; _parameters := _parameters m; _buffers := _buffers m;
     _modules := _modules m; parametrizations_weight := parametrizations_weight m;
     _forward_hooks := hk |}.

(** The module object behind a value; anything else has none of the
    attributes asked for. *)
Definition the_module (h : Heap) (v : Value) : Result (addr * Module) :=
  match v with
  | VModule a =>
      match mods h !! a with
      | Some m => Ok (a, m)
      | None => Raise AttributeError
      end
  | _ => Raise AttributeError
  end.

(** [module.register_buffer(name, t)]: refused when the name is an attribute
    held elsewhere. *)
Definition register_buffer (h : Heap) (module : Value) (name : string) (t : Tensor)
  : Result Heap :=
  '(a, m) ← the_module h module;
  if hasattr h module name && bool_decide (_buffers m !! name = None)
  then Raise KeyError
  else Ok (set_mod h a (with_buffers m (<[name := Some t]> (_buffers m)))).

(** [module.register_parameter(name, p)]. *)
Definition register_parameter (h : Heap) (module : Value) (name : string)
    (p : option NNParameter) : Result Heap :=
  '(a, m) ← the_module h module;
  if hasattr h module name && bool_decide (_parameters m !! name = None)
  then Raise KeyError
  else Ok (set_mod h a (with_parameters m (<[name := p]> (_parameters m)))).

Fixpoint assoc_set {V : Type} (k : string) (v : V) (l : list (string * V))
  : list (string * V) :=
  match l with
  | [] => []
  | (k', v') :: l' =>
      if decide (k' = k) then (k', v) :: l' else (k', v') :: assoc_set k v l'
  end.

Fixpoint assoc_del {V : Type} (k : string) (l : list (string * V))
  : list (string * V) :=
  match l with
  | [] => []
  | (k', v') :: l' =>
      if decide (k' = k) then l' else (k', v') :: assoc_del k l'
  end.

(** [module.name = None] ([Module.__setattr__]): the name is cleared in the
    namespace that holds it, parameters first, then children, then buffers. *)
Definition setattr_None (h : Heap) (module : Value) (name : string) : Result Heap :=
  '(a, m) ← the_module h module;
  match _parameters m !! name with
  | Some _ => Ok (set_mod h a (with_parameters m (<[name := None]> (_parameters m))))
  | None =>
      match assoc name (_modules m) with
      | Some _ => Ok (set_mod h a (with_modules m (assoc_set name None (_modules m))))
      | None =>
          match _buffers m !! name with
          | Some _ => Ok (set_mod h a (with_buffers m (<[name := None]> (_buffers m))))
          | None => Ok h
          end
      end
  end.

(** [delattr(module, name)] ([Module.__delattr__]): parameters, then
    buffers, then children; [AttributeError] when the name is nowhere. *)
Definition delattr (h : Heap) (module : Value) (name : string) : Result Heap :=
  '(a, m) ← the_module h module;
  match _parameters m !! name with
  | Some _ => Ok (set_mod h a (with_parameters m (delete name (_parameters m))))
  | None =>
      match _buffers m !! name with
      | Some _ => Ok (set_mod h a (with_buffers m (delete name (_buffers m))))
      | None =>
          match assoc name (_modules m) with
          | Some _ => Ok (set_mod h a (with_modules m (assoc_del name (_modules m))))
          | None => Raise AttributeError
          end
      end
  end.

(** [module.register_forward_hook(hook)], returning the handle. *)
Definition register_forward_hook (h : Heap) (module : Value) (hook : Hook)
  : Result (Heap * Handle) :=
  '(a, m) ← the_module h module;
  Ok (set_mod h a (with_hooks m (_forward_hooks m ++ [hook])),
      (a, length (_forward_hooks m))).

(** Modelled from the spec: the constructor of a transform class
    ([parametrization.py] is not part of the sources at hand).  The transform
    is built from the mask and starts with every unit retained. *)
Definition new_transform (c : ParamClass) (mask : Tensor) : Transform :=
  {| t_cls := c; original_outputs := mask; pruned_outputs := ∅ |}.

(** [param(module.mask)] for the value [param] found in the configuration. *)
Definition call_param (param : Value) (mask : Value) : Result Transform :=
  match param, mask with
  | VParametrization c, VTensor t => Ok (new_transform c t)
  | VParametrization _, _ => Raise AttributeError
  | _, _ => Raise TypeError
  end.

(** Modelled from the spec: [parametrize.register_parametrization(module,
    'weight', tr, unsafe=True)], the host's register-weight-transform
    primitive.  It composes [tr] onto the chain of [weight] and exposes the
    chain; [ValueError] when the module has no tensor named [weight]. *)
Definition register_parametrization (h : Heap) (module : Value) (tr : Transform)
  : Result Heap :=
  '(a, m) ← the_module h module;
  match lookup_attr h m "weight" with
  | Some (VTensor _) =>
      Ok {| mods := <[a := with_chain m (parametrizations_weight m ++ [length (trans h)])]>
                      (mods h);
            trans := trans h ++ [tr] |}
  | _ => Raise ValueError
  end.

(** [module.parametrizations.weight[0]]. *)
Definition parametrizations_weight_0 (h : Heap) (module : Value) : Result addr :=
  '(a, m) ← the_module h module;
  match parametrizations_weight m with
  | t :: _ => Ok t
  | [] => Raise AttributeError
  end.

(** The stored tensor named [weight], and storing one in its place. *)
Definition stored_weight (m : Module) : option Tensor :=
  match _parameters m !! "weight" with
  | Some (Some p) => Some (data p)
  | Some None => None
  | None =>
      match _buffers m !! "weight" with
      | Some (Some t) => Some t
      | _ => None
      end
  end.

Definition store_weight (m : Module) (w : Tensor) : Module :=
  match _parameters m !! "weight" with
  | Some (Some p) =>
      with_parameters m
        (<["weight" := Some {| data := w; requires_grad := requires_grad p |}]>
           (_parameters m))
  | _ => with_buffers m (<["weight" := Some w]> (_buffers m))
  end.

(** Modelled from the spec: [parametrize.remove_parametrizations(module,
    'weight', leave_parametrized=True)] removes the installed chain and keeps
    its last computed output as the module's new permanent weight;
    [ValueError] when nothing is registered on [weight]. *)
Definition remove_parametrizations (h : Heap) (module : Value) : Result Heap :=
  '(a, m) ← the_module h module;
  match parametrizations_weight m, stored_weight m with
  | _ :: _, Some w =>
      Ok (set_mod h a
            (with_chain
               (store_weight m (apply_chain (trans h) (parametrizations_weight m) w))
               []))
  | _, _ => Raise ValueError
  end.

(** [module.weight.shape[0]]. *)
Definition weight_shape0 (h : Heap) (module : Value) : Result Z :=
  w ← getattr h module "weight";
  match w with
  | VTensor t => shape0 t
  | _ => Raise AttributeError
  end.

(** ** [_prepare]: mask attachment *)

Definition with_heap (st : State) (h : Heap) : State :=
  {| heap := h; self := self st; events := events st |}.

Definition with_self (st : State) (p : BasePruner) : State :=
  {| heap := heap st; self := p; events := events st |}.

Definition with_events (st : State) (ev : list Event) : State :=
  {| heap := heap st; self := self st; events := ev |}.

Definition push_activation_handle (p : BasePruner) (hd : Handle) : BasePruner :=
  {| defaults := defaults p; module_groups := module_groups p;
     enable_mask_update := enable_mask_update p; model := model p;
     config := config p; prune_bias := prune_bias p;
     activation_handles := activation_handles p ++ [hd];
     bias_handles := bias_handles p |}.

Definition push_bias_handle (p : BasePruner) (hd : Handle) : BasePruner :=
  {| defaults := defaults p; module_groups := module_groups p;
     enable_mask_update := enable_mask_update p; model := model p;
     config := config p; prune_bias := prune_bias p;
     activation_handles := activation_handles p;
     bias_handles := bias_handles p ++ [hd] |}.

Definition reset_handles (p : BasePruner) : BasePruner :=
  {| defaults := defaults p; module_groups := module_groups p;
     enable_mask_update := enable_mask_update p; model := model p;
     config := config p; prune_bias := prune_bias p;
     activation_handles := [];
     bias_handles := [] |}.

(** [d[key]]. *)
Definition dict_item (d : gmap string Value) (key : string) : Result Value :=
  match d !! key with
  | Some v => Ok v
  | None => Raise KeyError
  end.

(** The string or [None] held by a value asked to [split]. *)
Definition as_path (v : Value) : option string :=
  match v with
  | VStr s => Some s
  | _ => None
  end.

(** The module a group stands for: through its path or its reference. *)
Definition group_module (use_path : bool) (st : State) (cfg : gmap string Value)
  : Result Value :=
  if use_path then
    match model (self st) with
    | None => Raise AttributeError
    | Some root =>
        fqn ← dict_item cfg "fqn";
        _fqn_to_module (heap st) (VModule root) (as_path fqn)
    end
  else dict_item cfg "module".

(** [if getattr(module, 'mask', None) is None:
       module.register_buffer('mask', torch.tensor(module.weight.shape[0]))] *)
Definition ensure_mask (h : Heap) (module : Value) : Result Heap :=
  match getattr_default h module "mask" with
  | VNone =>
      n ← weight_shape0 h module;
      register_buffer h module "mask" (torch_tensor n)
  | _ => Ok h
  end.

(** [param = config.get('parametrization', dflt)]
    [parametrize.register_parametrization(module, 'weight', param(module.mask),
                                          unsafe=True)] *)
Definition attach_transform (h : Heap) (module : Value) (cfg : gmap string Value)
    (dflt : ParamClass) : Result Heap :=
  let param := default (VParametrization dflt) (cfg !! "parametrization") in
  mask ← getattr h module "mask";
  tr ← call_param param mask;
  register_parametrization h module tr.

(** [if module.bias is not None:
       module.register_parameter('_bias', nn.Parameter(module.bias.detach()))
       module.bias = None] *)
Definition detach_bias (h : Heap) (module : Value) : Result Heap :=
  b ← getattr h module "bias";
  match b with
  | VNone => Ok h
  | VTensor t =>
      h1 ← register_parameter h module "_bias" (Some (nn_Parameter (detach t)));
      setattr_None h1 module "bias"
  | _ => Raise AttributeError
  end.

(** The body of the loop of [_prepare], for one group. *)
Definition _prepare_body (use_path : bool) (st : State) (cfg : gmap string Value)
  : Result State :=
  module ← group_module use_path st cfg;
  st1 ←
    (if negb (isinstance (heap st) module NEEDS_ZEROS) then
       h1 ← ensure_mask (heap st) module;
       h2 ← attach_transform h1 module cfg PruningParametrization;
       if isinstance h2 module SUPPORTED_MODULES then
         tr ← parametrizations_weight_0 h2 module;
         '(h3, hd) ← register_forward_hook h2 module (ActivationReconstruction tr);
         Ok {| heap := h3; self := push_activation_handle (self st) hd;
               events := events st |}
       else Raise NotImplementedError
     else
       h1 ← ensure_mask (heap st) module;
       h2 ← attach_transform h1 module cfg ZeroesParametrization;
       Ok (with_heap st h2));
  h4 ← detach_bias (heap st1) module;
  tr ← parametrizations_weight_0 h4 module;
  match prune_bias (self st1) with
  | None => Raise AttributeError
  | Some pb =>
      '(h5, hd) ← register_forward_hook h4 module (BiasHook tr pb);
      Ok {| heap := h5; self := push_bias_handle (self st1) hd;
            events := events st1 |}
  end.

Definition _prepare (use_path : bool) (st : State) : Result State :=
  for_each (_prepare_body use_path) (module_groups (self st))
    (with_self st (reset_handles (self st))).

(** ** [prepare]: the group registry *)

(** [stack.pop()]: the last element, and the rest. *)
Definition list_pop {A : Type} (l : list A) : option (A * list A) :=
  match rev l with
  | [] => None
  | x :: r => Some (x, rev r)
  end.

(** The body of [for name, child in module.named_children()] in the
    auto-discovery: the configuration, the stack and the warnings so far. *)
Definition visit_child (h : Heap) (also_prune_bias : bool)
    (acc : list addr * list addr * list Event) (nc : string * addr)
  : list addr * list addr * list Event :=
  let '(cfg, stack, ev) := acc in
  let child := nc.2 in
  if type_in h (VModule child) SUPPORTED_MODULES then (cfg ++ [child], stack, ev)
  else
    let ev' :=
      if type_in h (VModule child) NEEDS_MANUAL_UPDATE && also_prune_bias
      then ev ++ match type_of h (VModule child) with
                 | Some t => [WarnMustProvide t]
                 | None => []
                 end
      else ev in
    (cfg, stack ++ [child], ev').

(** [while stack: module = stack.pop(); for ...]. *)
Fixpoint discover (fuel : nat) (h : Heap) (also_prune_bias : bool)
    (stack cfg : list addr) (ev : list Event) : option (list addr * list Event) :=
  match fuel with
  | 0 => None
  | S fuel' =>
      match list_pop stack with
      | None => Some (cfg, ev)
      | Some (module, stack') =>
          let '(cfg', stack'', ev') :=
            fold_left (visit_child h also_prune_bias) (named_children h module)
              (cfg, stack', ev) in
          discover fuel' h also_prune_bias stack'' cfg' ev'
      end
  end.

Definition path_value (fqn : option string) : Value :=
  match fqn with
  | Some s => VStr s
  | None => VNone
  end.

(** [local_args = copy.deepcopy(self.defaults); local_args.update(module_config)],
    a bare module standing for [{'module': module}].  The defaults hold plain
    values, so their deep copy is the same map. *)
Definition local_args (dflt : gmap string Value) (entry : ConfigEntry)
  : gmap string Value :=
  let module_config :=
    match entry with
    | EModule a => {[ "module" := VModule a ]}
    | EDict d => d
    end in
  module_config ∪ dflt.

(** The body of [for module_config in self.config]: the group of one entry. *)
Definition make_group (fuel : nat) (h : Heap) (root : addr)
    (dflt : gmap string Value) (entry : ConfigEntry)
  : option (Result (gmap string Value)) :=
  match local_args dflt entry !! "module" with
  | None => Some (Raise KeyError)
  | Some module =>
      match _module_to_fqn fuel h root module "" with
      | None => None
      | Some module_fqn =>
          Some (Ok (<["fqn" := path_value (strip_leading_dot module_fqn)]>
                      (local_args dflt entry)))
      end
  end.

Fixpoint build_groups (fuel : nat) (h : Heap) (root : addr)
    (dflt : gmap string Value) (entries : list ConfigEntry)
    (groups : list (gmap string Value))
  : option (Result (list (gmap string Value))) :=
  match entries with
  | [] => Some (Ok groups)
  | entry :: entries' =>
      match make_group fuel h root dflt entry with
      | None => None
      | Some (Raise e) => Some (Raise e)
      | Some (Ok g) => build_groups fuel h root dflt entries' (groups ++ [g])
      end
  end.

Definition set_prepare_args (p : BasePruner) (root : addr)
    (cfg : option (list ConfigEntry)) (also_prune_bias : bool) : BasePruner :=
  {| defaults := defaults p; module_groups := module_groups p;
     enable_mask_update := enable_mask_update p; model := Some root;
     config := cfg; prune_bias := Some also_prune_bias;
     activation_handles := activation_handles p;
     bias_handles := bias_handles p |}.

Definition set_config (p : BasePruner) (cfg : option (list ConfigEntry)) : BasePruner :=
  {| defaults := defaults p; module_groups := module_groups p;
     enable_mask_update := enable_mask_update p; model := model p;
     config := cfg; prune_bias := prune_bias p;
     activation_handles := activation_handles p;
     bias_handles := bias_handles p |}.

Definition set_module_groups (p : BasePruner) (gs : list (gmap string Value))
  : BasePruner :=
  {| defaults := defaults p; module_groups := gs;
     enable_mask_update := enable_mask_update p; model := model p;
     config := config p; prune_bias := prune_bias p;
     activation_handles := activation_handles p;
     bias_handles := bias_handles p |}.

(** The configuration [prepare] goes through: the one given, or the
    discovered modules when none is given. *)
Definition resolve_config (fuel : nat) (h : Heap) (root : addr)
    (cfg : option (list ConfigEntry)) (also_prune_bias : bool)
  : option (list ConfigEntry * list Event) :=
  match cfg with
  | Some entries => Some (entries, [])
  | None =>
      match discover fuel h also_prune_bias [root] [] [] with
      | None => None
      | Some (found, ev) => Some (map EModule found, ev)
      end
  end.

Definition prepare (fuel : nat) (st : State) (root : addr)
    (cfg : option (list ConfigEntry)) (also_prune_bias : bool)
  : option (Result State) :=
  let p0 := set_prepare_args (self st) root cfg also_prune_bias in
  match resolve_config fuel (heap st) root cfg also_prune_bias with
  | None => None
  | Some (entries, ev) =>
      let p1 := set_config p0 (Some entries) in
      match build_groups fuel (heap st) root (defaults p1) entries (module_groups p1) with
      | None => None
      | Some (Raise e) => Some (Raise e)
      | Some (Ok groups) =>
          Some (_prepare false
                  {| heap := heap st; self := set_module_groups p1 groups;
                     events := events st ++ ev |})
      end
  end.

(** ** [squash_mask], [manual_mask_update], [step] *)

(** [getattr(d, 'mask', None)] where [d] is a dictionary: an attribute of the
    dictionary object is asked for, not a key, and a dictionary has no
    attribute [mask]. *)
Definition dict_getattr_mask {V : Type} (d : gmap string V) : option V := None.

Definition squash_mask_body (use_path : bool) (st : State) (cfg : gmap string Value)
  : Result State :=
  module ← group_module use_path st cfg;
  h1 ← remove_parametrizations (heap st) module;
  '(a, m) ← the_module h1 module;
  let h2 :=
    match dict_getattr_mask (_parameters m) with
    | Some _ => set_mod h1 a (with_parameters m (delete "mask" (_parameters m)))
    | None =>
        match dict_getattr_mask (_buffers m) with
        | Some _ => set_mod h1 a (with_buffers m (delete "mask" (_buffers m)))
        | None => h1
        end
    end in
  h3 ← delattr h2 module "mask";
  Ok (with_heap st h3).

Definition squash_mask (use_path : bool) (st : State) : Result State :=
  for_each (squash_mask_body use_path) (module_groups (self st)) st.

Definition with_pruned (t : Transform) (pruned : gset nat) : Transform :=
  {| t_cls := t_cls t; original_outputs := original_outputs t;
     pruned_outputs := pruned |}.

(** [param = module.parametrizations.weight[0]]
    [param.pruned_outputs.update(pruned_outputs)] *)
Definition manual_mask_update (st : State) (module : Value) (pruned : gset nat)
  : Result State :=
  t ← parametrizations_weight_0 (heap st) module;
  match trans (heap st) !! t with
  | None => Raise AttributeError
  | Some tr =>
      Ok (with_heap st
            {| mods := mods (heap st);
               trans := <[t := with_pruned tr (pruned_outputs tr ∪ pruned)]>
                          (trans (heap st)) |})
  end.

Definition step_body `{Policy} (use_path : bool) (st : State)
    (cfg : gmap string Value) : Result State :=
  module ← group_module use_path st cfg;
  if type_in (heap st) module NEEDS_MANUAL_UPDATE then
    Ok (with_events st
          (events st ++ match type_of (heap st) module with
                        | Some t => [WarnManualUpdate t]
                        | None => []
                        end))
  else
    let st1 := with_events st (events st ++ [UpdateMaskCall module cfg]) in
    h ← update_mask module cfg (heap st1);
    Ok (with_heap st1 h).

Definition step `{Policy} (use_path : bool) (st : State) : Result State :=
  if negb (enable_mask_update (self st)) then Ok st
  else for_each (step_body use_path) (module_groups (self st)) st.

(** ** Predicates of the statements *)

(** What one pass of the loop of [_prepare] makes of the module [m] of a
    group, in the store [h]: [m'] is the module after it, [tr] the transform
    object it allocates. *)
Record prepared_module (h : Heap) (pb : bool) (cfg : gmap string Value)
    (a : addr) (m m' : Module) (tr : Transform) : Prop := {
  pm_cls : cls m' = cls m;
  pm_chain :
    parametrizations_weight m' = parametrizations_weight m ++ [length (trans h)];
  pm_class :
    default
      (VParametrization
         (if isinstance h (VModule a) NEEDS_ZEROS then ZeroesParametrization
          else PruningParametrization))
      (cfg !! "parametrization") = VParametrization (t_cls tr);
  pm_pruned : pruned_outputs tr = ∅;
  pm_hooks :
    exists t0, head (parametrizations_weight m') = Some t0 /\
      _forward_hooks m' =
        _forward_hooks m
        ++ (if isinstance h (VModule a) NEEDS_ZEROS then []
            else [ActivationReconstruction t0])
        ++ [BiasHook t0 pb];
  pm_supported :
    isinstance h (VModule a) NEEDS_ZEROS = false ->
    isinstance h (VModule a) SUPPORTED_MODULES = true;
  pm_parameters :
    forall k, k <> "bias" -> k <> "_bias" -> _parameters m' !! k = _parameters m !! k;
  pm_buffers :
    forall k, k <> "mask" -> k <> "bias" -> _buffers m' !! k = _buffers m !! k;
  pm_mask_kept :
    getattr_default h (VModule a) "mask" <> VNone ->
    _buffers m' !! "mask" = _buffers m !! "mask";
  pm_mask_new :
    getattr_default h (VModule a) "mask" = VNone ->
    exists n, weight_shape0 h (VModule a) = Ok n /\
              _buffers m' !! "mask" = Some (Some (torch_tensor n)) /\
              original_outputs tr = torch_tensor n;
  pm_mask_tensor :
    lookup_attr h m' "mask" = Some (VTensor (original_outputs tr));
  pm_bias :
    forall p, _parameters m !! "bias" = Some (Some p) ->
      _parameters m' !! "bias" = Some None /\
      _parameters m' !! "_bias" = Some (Some (nn_Parameter (detach (data p))));
  pm_bias_absent :
    _parameters m !! "bias" = Some None ->
    forall k, _parameters m' !! k = _parameters m !! k;
}.

(** A module that pruning has not touched yet: no mask in either namespace
    and nothing registered on its weight. *)
Record fresh_module (m : Module) : Prop := {
  fm_mask_parameter : _parameters m !! "mask" = None;
  fm_mask_buffer : _buffers m !! "mask" = None;
  fm_chain : parametrizations_weight m = [];
}.

(** What [_prepare] has made of a module that was [m0] and fresh, once a
    group of it has been gone through: [n] is the leading dimension of its
    weight, [len0] the number of transform objects there were before, [ts]
    the transform objects now. *)
Record module_prepared (len0 : nat) (pb : bool) (n : Z) (m0 m : Module)
    (ts : list Transform) : Prop := {
  mp_cls : cls m = cls m0;
  mp_weight_parameter : _parameters m !! "weight" = _parameters m0 !! "weight";
  mp_weight_buffer : _buffers m !! "weight" = _buffers m0 !! "weight";
  mp_mask_parameter : _parameters m !! "mask" = None;
  mp_mask_buffer : _buffers m !! "mask" = Some (Some (torch_tensor n));
  mp_chain_nonempty : parametrizations_weight m <> [];
  mp_chain :
    forall t, t ∈ parametrizations_weight m ->
      len0 <= t /\
      exists tr, ts !! t = Some tr /\
                 original_outputs tr = torch_tensor n /\ pruned_outputs tr = ∅;
  mp_bias_hook : exists t0, BiasHook t0 pb ∈ _forward_hooks m;
  mp_bias :
    forall p, _parameters m0 !! "bias" = Some (Some p) ->
      _parameters m !! "bias" = Some None /\
      _parameters m !! "_bias" = Some (Some (nn_Parameter (detach (data p))));
}.

(** The two stages of a fresh module [m0] at [a] while the loop of
    [_prepare] runs from the state [s0]: not reached yet, and gone through. *)
Definition untouched (a : addr) (m0 : Module) (pb : bool) (len0 : nat)
    (s : State) : Prop :=
  mods (heap s) !! a = Some m0 /\ prune_bias (self s) = Some pb /\
  len0 <= length (trans (heap s)).

Definition established (a : addr) (m0 : Module) (pb : bool) (len0 : nat)
    (s0 s : State) : Prop :=
  exists n m, weight_shape0 (heap s0) (VModule a) = Ok n /\
    mods (heap s) !! a = Some m /\
    prune_bias (self s) = Some pb /\
    len0 <= length (trans (heap s)) /\
    module_prepared len0 pb n m0 m (trans (heap s)).

(** ** Example objects *)

Definition module_of (t : PyType) (params : list (string * option NNParameter))
    (children : list (string * option addr)) : Module :=
  {| cls := t; _parameters := list_to_map params; _buffers := ∅;
     _modules := children; parametrizations_weight := []; _forward_hooks := [] |}.

(** A linear layer with two output units and a bias. *)
Definition ex_linear : Module :=
  module_of Linear
    [("weight", Some (nn_Parameter (Units [[1; 2]; [3; 4]]%Z)));
     ("bias", Some (nn_Parameter (Units [[5]; [6]]%Z)))] [].

(** A batch-norm layer with three channels. *)
Definition ex_batchnorm : Module :=
  module_of BatchNorm2d
    [("weight", Some (nn_Parameter (Units [[1]; [1]; [1]]%Z)));
     ("bias", Some (nn_Parameter (Units [[0]; [0]; [0]]%Z)))] [].

(** Classes derived from the kinds of the tables, and a kind outside them. *)
Definition ex_my_linear : Module :=
  module_of (Subclass "MyLinear" Linear)
    [("weight", Some (nn_Parameter (Units [[1; 2]; [3; 4]]%Z)));
     ("bias", Some (nn_Parameter (Units [[5]; [6]]%Z)))] [].

Definition ex_my_batchnorm : Module :=
  module_of (Subclass "MyBatchNorm" BatchNorm2d)
    [("weight", Some (nn_Parameter (Units [[1]; [1]; [1]]%Z)));
     ("bias", Some (nn_Parameter (Units [[0]; [0]; [0]]%Z)))] [].

Definition ex_embedding : Module :=
  module_of (OtherModule "Embedding")
    [("weight", Some (nn_Parameter (Units [[1; 2]; [3; 4]; [5; 6]]%Z)));
     ("bias", None)] [].

(** [Net(fc = Linear, bn = BatchNorm2d)] at addresses 0, 1 and 2; address 3
    holds a linear layer that is no part of any model;
    [Other(my_fc, my_bn, emb)] at addresses 10, 4, 5 and 6. *)
Definition ex_net : Module :=
  module_of (OtherModule "Net") [] [("fc", Some 1); ("bn", Some 2)].

Definition ex_other : Module :=
  module_of (OtherModule "Other") []
    [("my_fc", Some 4); ("my_bn", Some 5); ("emb", Some 6)].

Definition ex_heap : Heap :=
  {| mods := list_to_map [(0, ex_net); (1, ex_linear); (2, ex_batchnorm); (3, ex_linear);
                          (4, ex_my_linear); (5, ex_my_batchnorm); (6, ex_embedding);
                          (10, ex_other)];
     trans := [] |}.

Definition ex_state : State :=
  {| heap := ex_heap; self := __init__ None; events := [] |}.

(** A policy whose [update_mask] leaves everything as it is. *)
Definition idle_policy : Policy := {| update_mask := fun _ _ h => Ok h |}.

(** The state a run has returned, for the runs below, which all return. *)
Definition state_of (r : option (Result State)) : State :=
  match r with
  | Some (Ok s) => s
  | _ => ex_state
  end.

(** [Net(fc, bn)] prepared without a configuration, and then squashed. *)
Definition ex_prepared : State :=
  Eval vm_compute in state_of (prepare 3 ex_state 0 None true).

Definition ex_squashed : State :=
  Eval vm_compute in state_of (Some (squash_mask false ex_prepared)).

Definition ex_group_fc : gmap string Value :=
  {[ "module" := VModule 1; "fqn" := VStr "fc" ]}.

(** [Net(fc, bn)] prepared with the stray linear layer as its configuration. *)
Definition ex_prepared_stray : State :=
  Eval vm_compute in state_of (prepare 3 ex_state 0 (Some [EModule 3]) true).



(** ** The claims as stated, where the code departs from them *)

(** The mask buffer as a tensor with one entry per output unit: its leading
    dimension is the unit count. *)
Definition mask_as_wide_as (mask : Tensor) (n : Z) : Prop := shape0 mask = Ok n.

(** After [prepare], every fresh module of a group outside the
    manual-update kinds carries a mask buffer as wide as its weight. *)
Definition mask_width_stated (fuel : nat) (st : State) (root : addr)
    (cfg : option (list ConfigEntry)) (also_prune_bias : bool) : Prop :=
  forall st' g a m0 n,
    prepare fuel st root cfg also_prune_bias = Some (Ok st') ->
    g ∈ module_groups (self st') -> g !! "module" = Some (VModule a) ->
    mods (heap st) !! a = Some m0 -> fresh_module m0 ->
    type_in (heap st) (VModule a) NEEDS_MANUAL_UPDATE = false ->
    weight_shape0 (heap st) (VModule a) = Ok n ->
    exists m' mask, mods (heap st') !! a = Some m' /\
      _buffers m' !! "mask" = Some (Some mask) /\ mask_as_wide_as mask n.

(** A storage slot that training does not touch by default: a buffer, or a
    parameter made with [requires_grad=False]. *)
Definition non_trainable_slot (m : Module) (name : string) : Prop :=
  (exists t, _buffers m !! name = Some (Some t)) \/
  (exists p, _parameters m !! name = Some (Some p) /\ requires_grad p = false).

(** After [prepare], the bias of every module of a group sits in a secondary
    slot that is not trainable by default, the primary reference is cleared
    and a bias hook is installed. *)
Definition bias_detached_stated (fuel : nat) (st : State) (root : addr)
    (cfg : option (list ConfigEntry)) (also_prune_bias : bool) : Prop :=
  forall st' g a m0 p,
    prepare fuel st root cfg also_prune_bias = Some (Ok st') ->
    g ∈ module_groups (self st') -> g !! "module" = Some (VModule a) ->
    mods (heap st) !! a = Some m0 ->
    _parameters m0 !! "bias" = Some (Some p) ->
    exists m', mods (heap st') !! a = Some m' /\
      getattr (heap st') (VModule a) "bias" = Ok VNone /\
      non_trainable_slot m' "_bias" /\
      exists t0, BiasHook t0 also_prune_bias ∈ _forward_hooks m'.

(** The bias of the module at [a], which was [m0], once a group of it has
    been gone through. *)
Definition bias_detached (a : addr) (m0 : Module) (pb : bool) (s : State) : Prop :=
  exists m, mods (heap s) !! a = Some m /\
    prune_bias (self s) = Some pb /\
    (exists t0, BiasHook t0 pb ∈ _forward_hooks m) /\
    forall p, _parameters m0 !! "bias" = Some (Some p) ->
      _parameters m !! "bias" = Some None /\
      _parameters m !! "_bias" = Some (Some (nn_Parameter (detach (data p)))).

(** After [prepare] and [squash_mask] with nothing pruned in between, every
    fresh module of a group reads the weight and the bias it had, and keeps
    no mask and no transform. *)
Definition squash_roundtrip_stated (fuel : nat) (st : State) (root : addr)
    (cfg : option (list ConfigEntry)) (also_prune_bias : bool) : Prop :=
  forall st1 st2 g a m0,
    prepare fuel st root cfg also_prune_bias = Some (Ok st1) ->
    squash_mask false st1 = Ok st2 ->
    g ∈ module_groups (self st1) -> g !! "module" = Some (VModule a) ->
    mods (heap st) !! a = Some m0 -> fresh_module m0 ->
    getattr (heap st2) (VModule a) "weight" = getattr (heap st) (VModule a) "weight" /\
    getattr (heap st2) (VModule a) "bias" = getattr (heap st) (VModule a) "bias" /\
    exists m2, mods (heap st2) !! a = Some m2 /\
      _parameters m2 !! "mask" = None /\ _buffers m2 !! "mask" = None /\
      parametrizations_weight m2 = [].

(** The module at [a], which was [m0] and fresh, after its group was
    squashed. *)
Definition squashed (a : addr) (m0 : Module) (pb : bool) (s : State) : Prop :=
  exists m w, mods (heap s) !! a = Some m /\
    stored_weight m0 = Some w /\ stored_weight m = Some w /\
    parametrizations_weight m = [] /\
    _parameters m !! "mask" = None /\ _buffers m !! "mask" = None /\
    (exists t0, BiasHook t0 pb ∈ _forward_hooks m) /\
    forall p, _parameters m0 !! "bias" = Some (Some p) ->
      _parameters m !! "bias" = Some None /\
      _parameters m !! "_bias" = Some (Some (nn_Parameter (detach (data p)))).

(** Under [prepare] with a configuration, every entry whose module is of a
    class in neither the needs-zeroing nor the supported table makes it fail
    with the unsupported-module error. *)
Definition unsupported_fails_stated (fuel : nat) (st : State) (root : addr)
    (entries : list ConfigEntry) (also_prune_bias : bool) : Prop :=
  forall entry v,
    entry ∈ entries ->
    local_args (defaults (self st)) entry !! "module" = Some v ->
    type_in (heap st) v NEEDS_ZEROS = false ->
    type_in (heap st) v SUPPORTED_MODULES = false ->
    prepare fuel st root (Some entries) also_prune_bias = Some (Raise NotImplementedError).

(** Under [prepare] with a configuration, an entry whose module has no path
    in the model makes it fail. *)
Definition unresolvable_fails_stated (fuel : nat) (st : State) (root : addr)
    (entries : list ConfigEntry) (also_prune_bias : bool) : Prop :=
  forall entry v,
    entry ∈ entries ->
    local_args (defaults (self st)) entry !! "module" = Some v ->
    _module_to_fqn fuel (heap st) root v "" = Some None ->
    exists e, prepare fuel st root (Some entries) also_prune_bias = Some (Raise e).






(** ** The model tree *)

(** [c] is bound as a child module of [a] under [name]. *)
Definition child_of (h : Heap) (a : addr) (name : string) (c : addr) : Prop :=
  exists m, mods h !! a = Some m /\ (name, Some c) ∈ _modules m.

(** [b] is reached from [a] by following the child attributes [names]. *)
Inductive child_path (h : Heap) : addr -> list string -> addr -> Prop :=
| child_path_here a : child_path h a [] a
| child_path_step a name c names b :
    child_of h a name c -> child_path h c names b ->
    child_path h a (name :: names) b.

(** No chain of children from [a] has [d] modules or more: the tree under
    [a] is finite, without a cycle. *)
Fixpoint depth_bounded (d : nat) (h : Heap) (a : addr) : bool :=
  match d with
  | 0 => false
  | S d' => forallb (fun nc => depth_bounded d' h nc.2) (named_children h a)
  end.




(** The dotted path of a chain of names, as [_module_to_fqn] builds it
    (each name after a dot), and as [prepare] stores it. *)
Fixpoint dotted (names : list string) : string :=
  match names with
  | [] => ""
  | name :: names' => "." +:+ name +:+ dotted names'
  end.



(** ** Auto-discovery *)

(** [type(c) in SUPPORTED_MODULES]. *)
Definition supported (h : Heap) (c : addr) : bool :=
  type_in h (VModule c) SUPPORTED_MODULES.

(** The modules the traversal of [prepare] registers from [a]: a child of a
    supported type, or what is registered from a child of another type.  The
    root is not looked at, nor is anything below a supported module. *)
Inductive discovered_from (h : Heap) : addr -> addr -> Prop :=
| discovered_child a name c :
    child_of h a name c -> supported h c = true -> discovered_from h a c
| discovered_deeper a name c x :
    child_of h a name c -> supported h c = false ->
    discovered_from h c x -> discovered_from h a x.

(** The same, as the list the stack discipline produces: the supported
    children in order, then what each other child gives, last child first. *)
Fixpoint collect (d : nat) (h : Heap) (a : addr) : list addr :=
  match d with
  | 0 => []
  | S d' =>
      let cs := (named_children h a).*2 in
      filter (fun c => supported h c = true) cs
      ++ mjoin (collect d' h <$> reverse (filter (fun c => supported h c = false) cs))
  end.

(** Every place below [a] in the tree, by the module that sits there. *)
Fixpoint descendants (d : nat) (h : Heap) (a : addr) : list addr :=
  match d with
  | 0 => []
  | S d' => mjoin ((fun c => c :: descendants d' h c) <$> (named_children h a).*2)
  end.

(** The modules the traversal pops off its stack, counted from [a]. *)
Fixpoint traversal_size (d : nat) (h : Heap) (a : addr) : nat :=
  match d with
  | 0 => 1
  | S d' =>
      S (sum_list (traversal_size d' h <$>
                     filter (fun c => supported h c = false) (named_children h a).*2))
  end.

(** [prepare] without a configuration registers a module below the root if
    and only if its exact type is supported, and none of a manual-update
    kind. *)
Definition discovery_stated (fuel : nat) (st : State) (root : addr)
    (also_prune_bias : bool) : Prop :=
  forall st' names a,
    prepare fuel st root None also_prune_bias = Some (Ok st') ->
    names <> [] -> child_path (heap st) root names a ->
    ((exists g, g ∈ module_groups (self st') /\ g !! "module" = Some (VModule a)) <->
     type_in (heap st) (VModule a) SUPPORTED_MODULES = true) /\
    (type_in (heap st) (VModule a) NEEDS_MANUAL_UPDATE = true ->
     ~ exists g, g ∈ module_groups (self st') /\ g !! "module" = Some (VModule a)).

Definition ex_group_bn : gmap string Value :=
  {[ "module" := VModule 2; "fqn" := VStr "bn" ]}.

(** ** More of the pruner *)

(** The dictionary a configuration entry stands for: a bare module is
    [{'module': module}]. *)
Definition module_config_of (entry : ConfigEntry) : gmap string Value :=
  match entry with
  | EModule a => {[ "module" := VModule a ]}
  | EDict d => d
  end.





(** The groups of a registry that stand for the module at [a]. *)
Definition groups_of (a : addr) (groups : list (gmap string Value))
  : list (gmap string Value) :=
  filter (fun g => g !! "module" = Some (VModule a)) groups.

(** A bias handle is good for a group in a state: it names the group's
    module and the position of a bias hook among that module's hooks. *)
Definition bias_handle_of (s : State) (pb : bool) (g : gmap string Value)
    (hd : Handle) : Prop :=
  exists m t, g !! "module" = Some (VModule hd.1) /\
    mods (heap s) !! hd.1 = Some m /\
    _forward_hooks m !! hd.2 = Some (BiasHook t pb).

(** [Net(fc, bn)] prepared with [fc] listed twice. *)
Definition ex_prepared_twice : State :=
  Eval vm_compute in
    state_of (prepare 3 ex_state 0 (Some [EModule 1; EModule 1]) true).

(** The linear layer with a mask buffer of its own. *)
Definition ex_linear_masked : Module :=
  with_buffers ex_linear {[ "mask" := Some (Scalar 7) ]}.

Definition ex_state_masked : State :=
  {| heap := set_mod ex_heap 1 ex_linear_masked; self := __init__ None; events := [] |}.

Definition ex_prepared_masked : State :=
  Eval vm_compute in state_of (prepare 3 ex_state_masked 0 None true).

(** The transform object a hook closes over. *)
Definition hook_transform (hk : Hook) : addr :=
  match hk with
  | ActivationReconstruction t => t
  | BiasHook t _ => t
  end.

(** The module at [a], which was [m0] with nothing on its weight, once
    [_prepare] has gone through a group of it: the hooks added to it all
    close over the first transform of its weight, which marks no unit. *)
Definition hooks_share (a : addr) (m0 : Module) (s : State) : Prop :=
  exists m t tr new,
    mods (heap s) !! a = Some m /\
    head (parametrizations_weight m) = Some t /\
    trans (heap s) !! t = Some tr /\ pruned_outputs tr = ∅ /\
    _forward_hooks m = _forward_hooks m0 ++ new /\
    Forall (fun hk => hook_transform hk = t) new.

(** The state [manual_mask_update] leaves on [Net(fc, bn)] when the first
    unit of [fc] is given as pruned. *)
Definition ex_updated : State :=
  Eval vm_compute in state_of (Some (manual_mask_update ex_prepared (VModule 1) {[ 0 ]})).


(** * Properties *)

(** ** The error monad and the loops *)

Lemma bind_Ok {A B : Type} (r : Result A) (f : A -> Result B) (b : B) :
  r ≫= f = Ok b -> exists a, r = Ok a /\ f a = Ok b.
Proof. destruct r as [a|e]; simpl; [eauto | discriminate]. Qed.

Lemma for_each_app {S A : Type} (body : S -> A -> Result S) (l1 l2 : list A) (s : S) :
  for_each body (l1 ++ l2) s =
  match for_each body l1 s with
  | Ok s' => for_each body l2 s'
  | Raise e => Raise e
  end.
Proof.
  revert s. induction l1 as [|x l1 IH]; intros s; simpl; [done|].
  destruct (body s x); [apply IH | done].
Qed.

(** An invariant of the loop body is an invariant of the loop. *)
Lemma for_each_invariant {S A : Type} (body : S -> A -> Result S) (I : S -> Prop)
    (l : list A) :
  (forall s x s', x ∈ l -> I s -> body s x = Ok s' -> I s') ->
  forall s s', I s -> for_each body l s = Ok s' -> I s'.
Proof.
  induction l as [|x l IH]; intros Hstep s s' Hs Hrun; simpl in Hrun.
  - by inversion Hrun; subst.
  - destruct (body s x) as [s1|e] eqn:Hb; [|discriminate].
    apply (IH (fun s0 y s0' Hy => Hstep s0 y s0' (list_elem_of_further _ _ _ Hy)) s1 s');
      [|done].
    eapply Hstep; [apply list_elem_of_here | exact Hs | exact Hb].
Qed.

(** ** Host primitives: what each changes *)

Lemma set_mod_id h a m : mods h !! a = Some m -> set_mod h a m = h.
Proof. intros Hm. destruct h as [ms ts]. unfold set_mod; simpl in *. by rewrite insert_id. Qed.

Lemma set_mod_lookup h a m : mods (set_mod h a m) !! a = Some m.
Proof. apply lookup_insert_eq. Qed.

Lemma the_module_Ok h v a m : the_module h v = Ok (a, m) <-> v = VModule a /\ mods h !! a = Some m.
Proof.
  unfold the_module. split.
  - destruct v; try discriminate. destruct (mods h !! a0) eqn:E; [|discriminate].
    intros [= <- <-]. done.
  - intros [-> ->]. done.
Qed.

Lemma the_module_at h a m : mods h !! a = Some m -> the_module h (VModule a) = Ok (a, m).
Proof. intros. by apply the_module_Ok. Qed.

Lemma ensure_mask_effect h a m h' :
  mods h !! a = Some m ->
  ensure_mask h (VModule a) = Ok h' ->
  exists b, h' = set_mod h a (with_buffers m b) /\
    (forall k, k <> "mask" -> b !! k = _buffers m !! k) /\
    (getattr_default h (VModule a) "mask" <> VNone -> b = _buffers m) /\
    (getattr_default h (VModule a) "mask" = VNone ->
       exists n, weight_shape0 h (VModule a) = Ok n /\
                 b = <["mask" := Some (torch_tensor n)]> (_buffers m)).
Proof.
  intros Hm. unfold ensure_mask.
  destruct (getattr_default h (VModule a) "mask") eqn:Hg.
  2-6: intros [= <-]; exists (_buffers m); split_and!; try done;
       destruct m; by rewrite set_mod_id.
  intros Hb. apply bind_Ok in Hb as (n & Hn & Hr).
  unfold register_buffer in Hr. rewrite (the_module_at _ _ _ Hm) in Hr. simpl in Hr.
  destruct (hasattr h (VModule a) "mask" && bool_decide (_buffers m !! "mask" = None)) eqn:Hh;
    [discriminate|]. injection Hr as <-.
  eexists. split; [done|]. split_and!.
  - intros k Hk. by rewrite lookup_insert_ne.
  - done.
  - intros _. by exists n.
Qed.

Lemma attach_transform_effect h a m cfg dflt h' :
  mods h !! a = Some m ->
  attach_transform h (VModule a) cfg dflt = Ok h' ->
  exists c t,
    getattr h (VModule a) "mask" = Ok (VTensor t) /\
    default (VParametrization dflt) (cfg !! "parametrization") = VParametrization c /\
    h' = {| mods := <[a := with_chain m (parametrizations_weight m ++ [length (trans h)])]>
                      (mods h);
            trans := trans h ++ [new_transform c t] |}.
Proof.
  intros Hm. unfold attach_transform. intros Hb.
  apply bind_Ok in Hb as (mask & Hmask & Hb).
  apply bind_Ok in Hb as (tr & Htr & Hb).
  unfold call_param in Htr.
  destruct (default _ _) as [| | | | |c] eqn:Hd; try discriminate.
  destruct mask as [| |t| | |]; try discriminate. injection Htr as <-.
  unfold register_parametrization in Hb. rewrite (the_module_at _ _ _ Hm) in Hb. simpl in Hb.
  destruct (lookup_attr h m "weight") as [[]|]; try discriminate.
  injection Hb as <-. by exists c, t.
Qed.

Lemma register_forward_hook_effect h a m hk h' hd :
  mods h !! a = Some m ->
  register_forward_hook h (VModule a) hk = Ok (h', hd) ->
  h' = set_mod h a (with_hooks m (_forward_hooks m ++ [hk])) /\
  hd = (a, length (_forward_hooks m)).
Proof.
  intros Hm. unfold register_forward_hook. rewrite (the_module_at _ _ _ Hm). simpl.
  by intros [= <- <-].
Qed.

Lemma parametrizations_weight_0_effect h a m t :
  mods h !! a = Some m ->
  parametrizations_weight_0 h (VModule a) = Ok t ->
  head (parametrizations_weight m) = Some t.
Proof.
  intros Hm. unfold parametrizations_weight_0. rewrite (the_module_at _ _ _ Hm). simpl.
  destruct (parametrizations_weight m); [discriminate|]. by intros [= <-].
Qed.

Lemma detach_bias_effect h a m h' :
  mods h !! a = Some m ->
  detach_bias h (VModule a) = Ok h' ->
  exists m', h' = set_mod h a m' /\
    cls m' = cls m /\
    parametrizations_weight m' = parametrizations_weight m /\
    _forward_hooks m' = _forward_hooks m /\
    (forall k, k <> "bias" -> k <> "_bias" -> _parameters m' !! k = _parameters m !! k) /\
    (forall k, k <> "bias" -> _buffers m' !! k = _buffers m !! k) /\
    (forall p, _parameters m !! "bias" = Some (Some p) ->
       _parameters m' !! "bias" = Some None /\
       _parameters m' !! "_bias" = Some (Some (nn_Parameter (detach (data p))))) /\
    (_parameters m !! "bias" = Some None -> m' = m).
Proof.
  intros Hm. unfold detach_bias. intros Hb.
  apply bind_Ok in Hb as (b & Hbias & Hb).
  unfold getattr in Hbias. rewrite Hm in Hbias.
  destruct (lookup_attr h m "bias") as [b'|] eqn:Hl; [|discriminate].
  injection Hbias as ->.
  destruct b as [| |t| | |]; try discriminate.
  - injection Hb as <-. exists m. rewrite set_mod_id by done. split_and!; try done.
    intros p Hp. unfold lookup_attr in Hl. by rewrite Hp in Hl.
  - apply bind_Ok in Hb as (h1 & Hreg & Hset).
    unfold register_parameter in Hreg. rewrite (the_module_at _ _ _ Hm) in Hreg. simpl in Hreg.
    destruct (_ && _); [discriminate|]. injection Hreg as <-.
    unfold setattr_None in Hset. rewrite (the_module_at _ a _ (set_mod_lookup _ _ _)) in Hset.
    simpl in Hset. rewrite lookup_insert_ne in Hset by done.
    unfold lookup_attr in Hl.
    destruct (_parameters m !! "bias") as [[p|]|] eqn:Hp.
    + injection Hset as <-. eexists. split.
      { unfold set_mod. simpl. by rewrite insert_insert_eq. }
      simpl. split_and!; try done.
      * intros k Hk1 Hk2. by rewrite !lookup_insert_ne.
      * intros p' [= <-]. injection Hl as <-.
        rewrite lookup_insert_eq, lookup_insert_ne, lookup_insert_eq by done.
        unfold through_chain. by rewrite decide_False.
    + discriminate.
    + destruct (assoc "bias" (_modules m)) as [c|] eqn:Hc.
      * injection Hset as <-. eexists. split.
        { unfold set_mod. simpl. by rewrite insert_insert_eq. }
        simpl. split_and!; try done.
        intros k Hk1 Hk2. by rewrite !lookup_insert_ne.
      * destruct (_buffers m !! "bias") as [bt|] eqn:Hbt.
        -- injection Hset as <-. eexists. split.
           { unfold set_mod. simpl. by rewrite insert_insert_eq. }
           simpl. split_and!; try done.
           ++ intros k Hk1 Hk2. by rewrite !lookup_insert_ne.
           ++ intros k Hk. by rewrite lookup_insert_ne.
        -- discriminate.
Qed.

(** ** One pass of the loop of [_prepare] *)

Lemma isinstance_same_cls h h' a kinds :
  cls <$> mods h' !! a = cls <$> mods h !! a ->
  isinstance h' (VModule a) kinds = isinstance h (VModule a) kinds.
Proof. unfold isinstance, type_of. by intros ->. Qed.

Lemma group_module_ref st cfg v :
  group_module false st cfg = Ok v -> cfg !! "module" = Some v.
Proof.
  unfold group_module, dict_item. destruct (cfg !! "module"); [|discriminate].
  by intros [= ->].
Qed.

Lemma with_buffers_same m : with_buffers m (_buffers m) = m.
Proof. by destruct m. Qed.

Lemma lookup_attr_tensor_stable h h' m m' name t :
  name <> "weight" ->
  lookup_attr h m name = Some (VTensor t) ->
  _parameters m' !! name = _parameters m !! name ->
  _buffers m' !! name = _buffers m !! name ->
  lookup_attr h' m' name = Some (VTensor t).
Proof.
  intros Hname Hl Hp Hb. unfold lookup_attr, through_chain in *.
  rewrite Hp, Hb. destruct (decide (name = "weight")) as [|_]; [done|].
  destruct (_parameters m !! name) as [[p|]|]; [done|done|].
  destruct (_buffers m !! name) as [[u|]|]; [done|done|].
  by destruct (assoc name (_modules m)) as [[c|]|].
Qed.

Lemma _prepare_body_effect st cfg st' :
  _prepare_body false st cfg = Ok st' ->
  exists a m m' tr pb,
    cfg !! "module" = Some (VModule a) /\
    mods (heap st) !! a = Some m /\
    prune_bias (self st) = Some pb /\
    heap st' = {| mods := <[a := m']> (mods (heap st));
                  trans := trans (heap st) ++ [tr] |} /\
    events st' = events st /\
    module_groups (self st') = module_groups (self st) /\
    prune_bias (self st') = prune_bias (self st) /\
    enable_mask_update (self st') = enable_mask_update (self st) /\
    model (self st') = model (self st) /\
    bias_handles (self st') = bias_handles (self st) ++ [(a, pred (length (_forward_hooks m')))] /\
    prepared_module (heap st) pb cfg a m m' tr.
Proof.
  unfold _prepare_body. intros Hb.
  apply bind_Ok in Hb as (v & Hv & Hb). apply group_module_ref in Hv.
  apply bind_Ok in Hb as (st1 & Hst1 & Hb).
  (* the module is an object of the store *)
  assert (exists a m, v = VModule a /\ mods (heap st) !! a = Some m) as (a & m & -> & Hm).
  { destruct (isinstance (heap st) v NEEDS_ZEROS) eqn:Hz.
    - unfold isinstance, type_of in Hz. destruct v; try discriminate.
      destruct (mods (heap st) !! a) eqn:E; [eauto|discriminate].
    - simpl in Hst1. apply bind_Ok in Hst1 as (h1 & H1 & _).
      unfold ensure_mask in H1.
      destruct v; try (by unfold getattr_default, getattr in H1; simpl in H1).
      destruct (mods (heap st) !! a) eqn:E; [eauto|].
      unfold getattr_default, getattr, weight_shape0, getattr in H1.
      rewrite E in H1. simpl in H1. discriminate. }
  (* first half: mask, transform, activation hook *)
  assert (exists b c t hk0 t0,
    heap st1 = {| mods := <[a := with_hooks (with_chain (with_buffers m b)
                      (parametrizations_weight m ++ [length (trans (heap st))]))
                      (_forward_hooks m ++ hk0)]> (mods (heap st));
                  trans := trans (heap st) ++ [new_transform c t] |} /\
    events st1 = events st /\
    module_groups (self st1) = module_groups (self st) /\
    prune_bias (self st1) = prune_bias (self st) /\
    enable_mask_update (self st1) = enable_mask_update (self st) /\
    model (self st1) = model (self st) /\
    bias_handles (self st1) = bias_handles (self st) /\
    head (parametrizations_weight m ++ [length (trans (heap st))]) = Some t0 /\
    hk0 = (if isinstance (heap st) (VModule a) NEEDS_ZEROS then []
           else [ActivationReconstruction t0]) /\
    (isinstance (heap st) (VModule a) NEEDS_ZEROS = false ->
     isinstance (heap st) (VModule a) SUPPORTED_MODULES = true) /\
    default (VParametrization
         (if isinstance (heap st) (VModule a) NEEDS_ZEROS then ZeroesParametrization
          else PruningParametrization)) (cfg !! "parametrization") = VParametrization c /\
    (forall k, k <> "mask" -> b !! k = _buffers m !! k) /\
    (getattr_default (heap st) (VModule a) "mask" <> VNone -> b = _buffers m) /\
    (getattr_default (heap st) (VModule a) "mask" = VNone ->
       exists n, weight_shape0 (heap st) (VModule a) = Ok n /\
                 b = <["mask" := Some (torch_tensor n)]> (_buffers m) /\
                 t = torch_tensor n) /\
    lookup_attr (heap st) (with_buffers m b) "mask" = Some (VTensor t))
    as (b & c & t & hk0 & t0 & Hh1 & Hev1 & Hmg1 & Hpb1 & Hen1 & Hmo1 & Hbh1 & Ht0 & Hhk0
        & Hsup & Hcls & Hbk & Hbkeep & Hbnew & Hmt).
  { assert (forall h1 h2 dflt,
        ensure_mask (heap st) (VModule a) = Ok h1 ->
        attach_transform h1 (VModule a) cfg dflt = Ok h2 ->
        exists b c t,
          h2 = {| mods := <[a := with_chain (with_buffers m b)
                      (parametrizations_weight m ++ [length (trans (heap st))])]>
                            (mods (heap st));
                  trans := trans (heap st) ++ [new_transform c t] |} /\
          default (VParametrization dflt) (cfg !! "parametrization") = VParametrization c /\
          (forall k, k <> "mask" -> b !! k = _buffers m !! k) /\
          (getattr_default (heap st) (VModule a) "mask" <> VNone -> b = _buffers m) /\
          (getattr_default (heap st) (VModule a) "mask" = VNone ->
             exists n, weight_shape0 (heap st) (VModule a) = Ok n /\
                       b = <["mask" := Some (torch_tensor n)]> (_buffers m) /\
                       t = torch_tensor n) /\
          lookup_attr (heap st) (with_buffers m b) "mask" = Some (VTensor t)) as Hfirst.
    { intros h1 h2 dflt H1 H2.
      destruct (ensure_mask_effect _ _ _ _ Hm H1) as (b & -> & Hbk & Hbkeep & Hbnew).
      destruct (attach_transform_effect _ _ _ _ _ _ (set_mod_lookup _ _ _) H2)
        as (c & t & Hmask & Hc & ->).
      assert (lookup_attr (heap st) (with_buffers m b) "mask" = Some (VTensor t)) as Hmt.
      { unfold getattr in Hmask. rewrite set_mod_lookup in Hmask.
        destruct (lookup_attr _ _ "mask") as [x|] eqn:Hx in Hmask; [|discriminate].
        injection Hmask as ->.
        by eapply lookup_attr_tensor_stable; [|exact Hx| |]. }
      exists b, c, t. split_and!; try done.
      - simpl. by rewrite insert_insert_eq.
      - intros Hnone. destruct (Hbnew Hnone) as (n & Hn & ->).
        exists n. split_and!; try done.
        unfold getattr in Hmask. rewrite set_mod_lookup in Hmask.
        unfold getattr_default, getattr in Hnone. rewrite Hm in Hnone.
        unfold lookup_attr in Hmask, Hnone. simpl in Hmask.
        destruct (_parameters m !! "mask") as [[p|]|]; try done.
        rewrite lookup_insert_eq in Hmask. unfold through_chain in Hmask.
        rewrite decide_False in Hmask by done. by injection Hmask as <-. }
    destruct (isinstance (heap st) (VModule a) NEEDS_ZEROS) eqn:Hz; simpl in Hst1.
    - apply bind_Ok in Hst1 as (h1 & H1 & Hst1).
      apply bind_Ok in Hst1 as (h2 & H2 & Hst1). injection Hst1 as <-.
      destruct (Hfirst _ _ _ H1 H2) as (b & c & t & -> & Hc & Hbk & Hbkeep & Hbnew & Hmt).
      assert (exists t0, head (parametrizations_weight m ++ [length (trans (heap st))])
                         = Some t0) as [t0 Ht0].
      { destruct (parametrizations_weight m); simpl; eauto. }
      exists b, c, t, [], t0. simpl. rewrite app_nil_r.
      split_and!; try done.
    - apply bind_Ok in Hst1 as (h1 & H1 & Hst1).
      apply bind_Ok in Hst1 as (h2 & H2 & Hst1).
      destruct (Hfirst _ _ _ H1 H2) as (b & c & t & -> & Hc & Hbk & Hbkeep & Hbnew & Hmt).
      assert (isinstance
        {| mods := <[a:=with_chain (with_buffers m b)
                     (parametrizations_weight m ++ [length (trans (heap st))])]> (mods (heap st));
           trans := trans (heap st) ++ [new_transform c t] |} (VModule a) SUPPORTED_MODULES
        = isinstance (heap st) (VModule a) SUPPORTED_MODULES) as Hsame.
      { apply isinstance_same_cls. simpl. rewrite lookup_insert_eq, Hm. done. }
      rewrite Hsame in Hst1.
      destruct (isinstance (heap st) (VModule a) SUPPORTED_MODULES); [|discriminate].
      apply bind_Ok in Hst1 as (t0 & Ht0 & Hst1).
      apply bind_Ok in Hst1 as ([h3 hd] & Hreg & Hst1). injection Hst1 as <-.
      pose proof (parametrizations_weight_0_effect _ _ _ _
                    (lookup_insert_eq (mods (heap st)) a _) Ht0) as Ht0'.
      destruct (register_forward_hook_effect _ _ _ _ _ _
                  (lookup_insert_eq (mods (heap st)) a _) Hreg) as [-> ->].
      exists b, c, t, [ActivationReconstruction t0], t0.
      unfold set_mod. simpl. rewrite insert_insert_eq. split_and!; done. }
  (* second half: bias and bias hook *)
  apply bind_Ok in Hb as (h4 & H4 & Hb).
  apply bind_Ok in Hb as (t0' & Ht0' & Hb).
  rewrite Hpb1 in Hb. destruct (prune_bias (self st)) as [pb|] eqn:Hpb; [|discriminate].
  apply bind_Ok in Hb as ([h5 hd] & Hreg & Hb). injection Hb as <-.
  rewrite Hh1 in H4.
  destruct (detach_bias_effect _ _ _ _ (lookup_insert_eq (mods (heap st)) a _) H4)
    as (m4 & -> & Hcls4 & Hch4 & Hhk4 & Hp4 & Hb4 & Hbias4 & Hnone4).
  pose proof (parametrizations_weight_0_effect _ _ _ _ (set_mod_lookup _ _ _) Ht0') as Ht0''.
  destruct (register_forward_hook_effect _ _ _ _ _ _ (set_mod_lookup _ _ _) Hreg) as [-> ->].
  rewrite Hch4 in Ht0''. simpl in Ht0'', Hcls4, Hch4, Hhk4, Hp4, Hb4, Hbias4, Hnone4.
  rewrite Ht0 in Ht0''. injection Ht0'' as <-.
  eexists a, m, _, (new_transform c t), pb. split_and!; try done.
  - unfold set_mod. simpl. by rewrite !insert_insert_eq.
  - simpl. rewrite Hbh1, length_app. simpl. replace (length (_forward_hooks m4) + 1) with (S (length (_forward_hooks m4))) by lia. done.
  - constructor; simpl; try done.
    + exists t0. rewrite Hch4, Hhk4, Hhk0. split; [done|]. by rewrite <- app_assoc.
    + intros k Hk1 Hk2. rewrite Hb4 by done. by apply Hbk.
    + intros Hne. rewrite Hb4 by done. by rewrite (Hbkeep Hne).
    + intros Hnone. destruct (Hbnew Hnone) as (n & Hn & -> & ->).
      exists n. split_and!; try done. rewrite Hb4 by done. by rewrite lookup_insert_eq.
    + eapply lookup_attr_tensor_stable; [|exact Hmt| |]; [done| |].
      * by rewrite Hp4.
      * by rewrite Hb4.
    + intros Hnone k. by rewrite (Hnone4 Hnone).
Qed.

(** ** The loop of [_prepare] on a fresh module *)

(** A property that holds until the first element that hits, is turned
    into another by that element, which then persists. *)
Lemma for_each_first_hit {S A : Type} (body : S -> A -> Result S)
    (P Q : S -> Prop) (hit : A -> Prop) `{!forall x, Decision (hit x)} (l : list A) :
  (forall s x s', body s x = Ok s' -> P s -> ~ hit x -> P s') ->
  (forall s x s', body s x = Ok s' -> P s -> hit x -> Q s') ->
  (forall s x s', body s x = Ok s' -> Q s -> Q s') ->
  forall s s', for_each body l s = Ok s' -> P s -> (exists x, x ∈ l /\ hit x) -> Q s'.
Proof.
  intros Hmiss Hhit Hkeep. induction l as [|x l IH]; intros s s' Hrun Hs (y & Hy & Hhy).
  - by apply elem_of_nil in Hy.
  - simpl in Hrun. destruct (body s x) as [s1|e] eqn:Hb; [|discriminate].
    destruct (decide (hit x)) as [Hx|Hx].
    + eapply (for_each_invariant body Q l); [|by eapply Hhit|exact Hrun].
      intros s2 z s2' _ HQ Hz. by eapply Hkeep.
    + apply (IH s1 s' Hrun); [by eapply Hmiss|].
      apply elem_of_cons in Hy as [->|Hy]; [done|eauto].
Qed.

Lemma weight_shape0_fresh h h' a m :
  mods h !! a = Some m -> mods h' !! a = Some m ->
  parametrizations_weight m = [] ->
  weight_shape0 h' (VModule a) = weight_shape0 h (VModule a).
Proof.
  intros Hm Hm' Hch. unfold weight_shape0, getattr. rewrite Hm, Hm'.
  unfold lookup_attr, through_chain. by rewrite Hch.
Qed.

Lemma lookup_attr_mask_buffer h m t :
  _parameters m !! "mask" = None -> _buffers m !! "mask" = Some (Some t) ->
  lookup_attr h m "mask" = Some (VTensor t).
Proof.
  intros Hp Hb. unfold lookup_attr, through_chain. rewrite Hp, Hb.
  by rewrite decide_False.
Qed.

Lemma lookup_attr_mask_none h m t :
  _parameters m !! "mask" = None -> _buffers m !! "mask" = None ->
  lookup_attr h m "mask" <> Some (VTensor t).
Proof.
  intros Hp Hb. unfold lookup_attr. rewrite Hp, Hb.
  by destruct (assoc "mask" (_modules m)) as [[c|]|].
Qed.

Section prepare_loop.
Context (a : addr) (m0 : Module) (pb : bool) (len0 : nat) (s0 : State).
Context (Hfresh : fresh_module m0) (Hm0 : mods (heap s0) !! a = Some m0).

Lemma _prepare_body_miss s cfg s' :
  _prepare_body false s cfg = Ok s' -> untouched a m0 pb len0 s ->
  cfg !! "module" <> Some (VModule a) -> untouched a m0 pb len0 s'.
Proof.
  intros Hb (Hm & Hpb & Hlen) Hmiss.
  destruct (_prepare_body_effect _ _ _ Hb)
    as (a' & m & m' & tr & pb' & Hc & Hma & Hpb' & Hh & _ & _ & Hpbs & _ & _ & _ & _).
  assert (a' <> a) by congruence.
  unfold untouched. rewrite Hh, Hpbs. simpl. rewrite lookup_insert_ne by done.
  split_and!; [done|done|]. rewrite length_app. lia.
Qed.

Lemma _prepare_body_hit s cfg s' :
  _prepare_body false s cfg = Ok s' -> untouched a m0 pb len0 s ->
  cfg !! "module" = Some (VModule a) -> established a m0 pb len0 s0 s'.
Proof.
  intros Hb (Hm & Hpb & Hlen) Hhit.
  destruct (_prepare_body_effect _ _ _ Hb)
    as (a' & m & m' & tr & pb' & Hc & Hma & Hpb' & Hh & _ & _ & Hpbs & _ & _ & _ & Hpm).
  assert (a' = a) as -> by congruence.
  assert (m = m0) as -> by congruence. assert (pb' = pb) as -> by congruence.
  destruct Hfresh as [Hfp Hfb Hfc].
  assert (_parameters m' !! "mask" = None) as Hp'.
  { by rewrite (pm_parameters _ _ _ _ _ _ _ Hpm). }
  destruct (decide (getattr_default (heap s) (VModule a) "mask" = VNone)) as [Hg|Hg].
  2:{ exfalso. pose proof (pm_mask_kept _ _ _ _ _ _ _ Hpm Hg) as Hk. rewrite Hfb in Hk.
      by eapply lookup_attr_mask_none; [| |apply (pm_mask_tensor _ _ _ _ _ _ _ Hpm)]. }
  destruct (pm_mask_new _ _ _ _ _ _ _ Hpm Hg) as (n & Hn & Hmask & Horig).
  exists n, m'. rewrite Hh, Hpbs. simpl. rewrite lookup_insert_eq.
  split_and!; try done.
  - by rewrite <- (weight_shape0_fresh (heap s0) (heap s) a m0).
  - rewrite length_app. lia.
  - constructor; try done.
    + apply (pm_cls _ _ _ _ _ _ _ Hpm).
    + by apply (pm_parameters _ _ _ _ _ _ _ Hpm).
    + by apply (pm_buffers _ _ _ _ _ _ _ Hpm).
    + rewrite (pm_chain _ _ _ _ _ _ _ Hpm). by destruct (parametrizations_weight m0).
    + intros t. rewrite (pm_chain _ _ _ _ _ _ _ Hpm), Hfc. simpl.
      intros ->%list_elem_of_singleton. split; [done|].
      exists tr. split_and!; [|done|apply (pm_pruned _ _ _ _ _ _ _ Hpm)].
      by rewrite lookup_app_r, Nat.sub_diag.
    + destruct (pm_hooks _ _ _ _ _ _ _ Hpm) as (t0 & _ & ->). exists t0.
      rewrite !elem_of_app. right; right. apply list_elem_of_here.
    + apply (pm_bias _ _ _ _ _ _ _ Hpm).
Qed.

Lemma _prepare_body_keep s cfg s' :
  _prepare_body false s cfg = Ok s' -> established a m0 pb len0 s0 s -> established a m0 pb len0 s0 s'.
Proof.
  intros Hb (n & m1 & Hn & Hm1 & Hpb & Hlen & Hmp).
  destruct (_prepare_body_effect _ _ _ Hb)
    as (a' & m & m' & tr & pb' & Hc & Hma & Hpb' & Hh & _ & _ & Hpbs & _ & _ & _ & Hpm).
  assert (pb' = pb) as -> by congruence.
  assert (forall t tr0, trans (heap s) !! t = Some tr0 ->
                        (trans (heap s) ++ [tr]) !! t = Some tr0) as Hold.
  { intros t tr0 Ht. by apply lookup_app_l_Some. }
  destruct (decide (a' = a)) as [->|Hne].
  - assert (m = m1) as -> by congruence.
    destruct Hmp as [Hcls Hwp Hwb Hmkp Hmkb Hne Hch Hhook Hbias].
    assert (_parameters m' !! "mask" = None) as Hp'.
    { by rewrite (pm_parameters _ _ _ _ _ _ _ Hpm). }
    assert (_buffers m' !! "mask" = Some (Some (torch_tensor n))) as Hb'.
    { rewrite (pm_mask_kept _ _ _ _ _ _ _ Hpm); [done|].
      unfold getattr_default, getattr. rewrite Hm1.
      by rewrite (lookup_attr_mask_buffer _ _ _ Hmkp Hmkb). }
    exists n, m'. rewrite Hh, Hpbs. simpl. rewrite lookup_insert_eq.
    split_and!; try done.
    { rewrite length_app. lia. }
    constructor; try done.
    + by rewrite (pm_cls _ _ _ _ _ _ _ Hpm).
    + by rewrite (pm_parameters _ _ _ _ _ _ _ Hpm).
    + by rewrite (pm_buffers _ _ _ _ _ _ _ Hpm).
    + rewrite (pm_chain _ _ _ _ _ _ _ Hpm). by destruct (parametrizations_weight m1).
    + intros t. rewrite (pm_chain _ _ _ _ _ _ _ Hpm), elem_of_app.
      intros [Ht| ->%list_elem_of_singleton].
      * destruct (Hch t Ht) as (Hle & tr0 & Htr0 & Ho & Hpr). split; [done|].
        exists tr0. split_and!; try done. by apply Hold.
      * split; [done|]. exists tr. split_and!.
        -- by rewrite lookup_app_r, Nat.sub_diag.
        -- pose proof (pm_mask_tensor _ _ _ _ _ _ _ Hpm) as Hmt.
           rewrite (lookup_attr_mask_buffer _ _ _ Hp' Hb') in Hmt. congruence.
        -- apply (pm_pruned _ _ _ _ _ _ _ Hpm).
    + destruct Hhook as (t0 & Ht0). exists t0.
      destruct (pm_hooks _ _ _ _ _ _ _ Hpm) as (t1 & _ & ->).
      rewrite elem_of_app. by left.
    + intros p Hp. destruct (Hbias p Hp) as [Hb1 Hb2].
      by rewrite !(pm_bias_absent _ _ _ _ _ _ _ Hpm Hb1).
  - exists n, m1. rewrite Hh, Hpbs. simpl. rewrite lookup_insert_ne by done.
    split_and!; try done.
    { rewrite length_app. lia. }
    destruct Hmp as [Hcls Hwp Hwb Hmkp Hmkb Hne' Hch Hhook Hbias].
    constructor; try done.
    intros t Ht. destruct (Hch t Ht) as (Hle & tr0 & Htr0 & Ho & Hpr). split; [done|].
    exists tr0. split_and!; try done. by apply Hold.
Qed.

Lemma _prepare_loop_establishes groups s s' :
  for_each (_prepare_body false) groups s = Ok s' ->
  untouched a m0 pb len0 s ->
  (exists g, g ∈ groups /\ g !! "module" = Some (VModule a)) ->
  established a m0 pb len0 s0 s'.
Proof.
  intros Hrun Hs Hex.
  eapply (for_each_first_hit (_prepare_body false) (untouched a m0 pb len0)
            (established a m0 pb len0 s0)
            (fun g => g !! "module" = Some (VModule a))); try done.
  - apply _prepare_body_miss.
  - apply _prepare_body_hit.
  - apply _prepare_body_keep.
Qed.
End prepare_loop.

(** ** C5: the switch *)



(** ** [prepare] as a whole *)

Lemma _prepare_body_self st cfg st' :
  _prepare_body false st cfg = Ok st' ->
  module_groups (self st') = module_groups (self st) /\
  prune_bias (self st') = prune_bias (self st) /\
  enable_mask_update (self st') = enable_mask_update (self st) /\
  model (self st') = model (self st) /\
  events st' = events st.
Proof.
  intros Hb.
  destruct (_prepare_body_effect _ _ _ Hb)
    as (a & m & m' & tr & pb & _ & _ & _ & _ & Hev & Hmg & Hpb & Hen & Hmo & _).
  done.
Qed.

(** [prepare] that returns has built the registry, which it leaves in
    [module_groups], and has run the loop of [_prepare] over it from the
    store it was given. *)
Lemma prepare_Ok fuel st root cfg apb st' :
  prepare fuel st root cfg apb = Some (Ok st') ->
  exists s1,
    heap s1 = heap st /\
    prune_bias (self s1) = Some apb /\
    model (self s1) = Some root /\
    enable_mask_update (self s1) = enable_mask_update (self st) /\
    for_each (_prepare_body false) (module_groups (self st')) s1 = Ok st' /\
    module_groups (self s1) = module_groups (self st') /\
    prune_bias (self st') = Some apb /\
    model (self st') = Some root /\
    enable_mask_update (self st') = enable_mask_update (self st).
Proof.
  unfold prepare. intros Hp.
  destruct (resolve_config _ _ _ _ _) as [[entries ev]|]; [|discriminate].
  destruct (build_groups _ _ _ _ _ _) as [[groups|e]|]; try discriminate.
  injection Hp as Hp. unfold _prepare in Hp. simpl in Hp.
  match type of Hp with for_each _ _ ?s = _ => set (s1 := s) in * end.
  assert (module_groups (self st') = groups /\ prune_bias (self st') = Some apb /\
          model (self st') = Some root /\
          enable_mask_update (self st') = enable_mask_update (self st)) as (Hg & Hpb & Hmo & Hen).
  { apply (for_each_invariant (_prepare_body false)
             (fun s => module_groups (self s) = groups /\ prune_bias (self s) = Some apb /\
                       model (self s) = Some root /\
                       enable_mask_update (self s) = enable_mask_update (self st))
             groups) with (s := s1); [|done|done].
    intros s x s' _ (H1 & H2 & H3 & H4) Hb.
    destruct (_prepare_body_self _ _ _ Hb) as (-> & -> & -> & -> & _). done. }
  exists s1. rewrite Hg. done.
Qed.

(** ** C1: the mask buffer *)

Lemma ex_prepare_eq : prepare 3 ex_state 0 None true = Some (Ok ex_prepared).
Proof. vm_compute. reflexivity. Qed.

Lemma ex_squash_eq : squash_mask false ex_prepared = Ok ex_squashed.
Proof. vm_compute. reflexivity. Qed.

Lemma ex_prepare_stray_eq :
  prepare 3 ex_state 0 (Some [EModule 3]) true = Some (Ok ex_prepared_stray).
Proof. vm_compute. reflexivity. Qed.


Lemma ex_group_fc_registered : ex_group_fc ∈ module_groups (self ex_prepared).
Proof. vm_compute. apply list_elem_of_here. Qed.

Lemma ex_linear_fresh : fresh_module ex_linear.
Proof. constructor; by vm_compute. Qed.

(** C1, as stated, fails on [Net(fc, bn)] prepared without a
    configuration: the mask buffer of the linear layer is the
    zero-dimensional [torch.tensor(2)], which has no leading dimension. *)
Lemma mask_width_stated_fails : ~ mask_width_stated 3 ex_state 0 None true.
Proof.
  intros Hc.
  destruct (Hc ex_prepared ex_group_fc 1 ex_linear 2%Z ex_prepare_eq
              ex_group_fc_registered)
    as (m' & mask & Hm' & Hmask & Hwide);
    [by vm_compute|by vm_compute|apply ex_linear_fresh|by vm_compute..|].
  vm_compute in Hm'. injection Hm' as <-. vm_compute in Hmask.
  injection Hmask as <-. discriminate.
Qed.

(** C1, amended.  After [prepare], every fresh module of a group that is
    outside the manual-update kinds carries a mask buffer (and no mask
    parameter): the zero-dimensional tensor that holds the leading dimension
    its weight had before; the transforms on its weight were built from
    that tensor and mark no unit as pruned. *)
Theorem prepare_mask_buffer fuel st root cfg apb st' g a m0 :
  prepare fuel st root cfg apb = Some (Ok st') ->
  g ∈ module_groups (self st') -> g !! "module" = Some (VModule a) ->
  mods (heap st) !! a = Some m0 -> fresh_module m0 ->
  type_in (heap st) (VModule a) NEEDS_MANUAL_UPDATE = false ->
  exists n m',
    weight_shape0 (heap st) (VModule a) = Ok n /\
    mods (heap st') !! a = Some m' /\
    _parameters m' !! "mask" = None /\
    _buffers m' !! "mask" = Some (Some (torch_tensor n)) /\
    parametrizations_weight m' <> [] /\
    forall t, t ∈ parametrizations_weight m' ->
      exists tr, trans (heap st') !! t = Some tr /\
                 original_outputs tr = torch_tensor n /\ pruned_outputs tr = ∅.
Proof.
  intros Hp Hg Hga Hm0 Hfresh _.
  destruct (prepare_Ok _ _ _ _ _ _ Hp) as (s1 & Hh1 & Hpb1 & _ & _ & Hrun & _).
  rewrite <- Hh1 in Hm0.
  destruct (_prepare_loop_establishes a m0 apb (length (trans (heap st))) s1 Hfresh Hm0
              _ _ _ Hrun) as (n & m' & Hn & Hm' & _ & _ & Hmp).
  - unfold untouched. by rewrite Hh1 in *.
  - eauto.
  - exists n, m'. rewrite Hh1 in Hn.
    destruct Hmp as [_ _ _ Hmkp Hmkb Hne Hchain _ _]. split_and!; try done.
    intros t Ht. destruct (Hchain t Ht) as (_ & tr & ?). eauto.
Qed.

Lemma prepare_mask_buffer_witness :
  exists n m',
    prepare 3 ex_state 0 None true = Some (Ok ex_prepared) /\
    weight_shape0 (heap ex_state) (VModule 1) = Ok n /\
    mods (heap ex_prepared) !! 1 = Some m' /\
    _buffers m' !! "mask" = Some (Some (torch_tensor n)).
Proof.
  destruct (prepare_mask_buffer 3 ex_state 0 None true ex_prepared ex_group_fc 1
              ex_linear ex_prepare_eq ex_group_fc_registered)
    as (n & m' & Hn & Hm' & _ & Hmask & _);
    [by vm_compute|by vm_compute|apply ex_linear_fresh|by vm_compute|].
  exists n, m'. split; [apply ex_prepare_eq|done].
Defined.

(** ** C9: the bias *)

Lemma _prepare_bias_loop a m0 pb groups s s' :
  for_each (_prepare_body false) groups s = Ok s' ->
  mods (heap s) !! a = Some m0 -> prune_bias (self s) = Some pb ->
  (exists g, g ∈ groups /\ g !! "module" = Some (VModule a)) ->
  bias_detached a m0 pb s'.
Proof.
  intros Hrun Hm0 Hpb Hex.
  eapply (for_each_first_hit (_prepare_body false)
            (fun s => mods (heap s) !! a = Some m0 /\ prune_bias (self s) = Some pb)
            (bias_detached a m0 pb)
            (fun g => g !! "module" = Some (VModule a))); try done.
  - intros s1 g s2 Hb [Hm Hp] Hmiss.
    destruct (_prepare_body_effect _ _ _ Hb)
      as (a' & m & m' & tr & pb' & Hc & Hma & Hpb' & Hh & _ & _ & Hpbs & _).
    assert (a' <> a) by congruence.
    rewrite Hh, Hpbs. simpl. by rewrite lookup_insert_ne.
  - intros s1 g s2 Hb [Hm Hp] Hhit.
    destruct (_prepare_body_effect _ _ _ Hb)
      as (a' & m & m' & tr & pb' & Hc & Hma & Hpb' & Hh & _ & _ & Hpbs & _ & _ & _ & Hpm).
    assert (a' = a) as -> by congruence.
    assert (m = m0) as -> by congruence. assert (pb' = pb) as -> by congruence.
    exists m'. rewrite Hh, Hpbs. simpl. rewrite lookup_insert_eq. split_and!; try done.
    + destruct (pm_hooks _ _ _ _ _ _ _ Hpm) as (t0 & _ & ->). exists t0.
      rewrite !elem_of_app. right; right. apply list_elem_of_here.
    + apply (pm_bias _ _ _ _ _ _ _ Hpm).
  - intros s1 g s2 Hb (m1 & Hm1 & Hp & (t0 & Ht0) & Hbias).
    destruct (_prepare_body_effect _ _ _ Hb)
      as (a' & m & m' & tr & pb' & Hc & Hma & Hpb' & Hh & _ & _ & Hpbs & _ & _ & _ & Hpm).
    destruct (decide (a' = a)) as [->|Hne].
    + assert (m = m1) as -> by congruence.
      exists m'. rewrite Hh, Hpbs. simpl. rewrite lookup_insert_eq. split_and!; try done.
      * exists t0. destruct (pm_hooks _ _ _ _ _ _ _ Hpm) as (t1 & _ & ->).
        rewrite elem_of_app. by left.
      * intros p Hp0. destruct (Hbias p Hp0) as [Hb1 Hb2].
        by rewrite !(pm_bias_absent _ _ _ _ _ _ _ Hpm Hb1).
    + exists m1. rewrite Hh, Hpbs. simpl. rewrite lookup_insert_ne by done.
      split_and!; eauto.
Qed.

(** C9, as stated, fails on [Net(fc, bn)]: the secondary slot of the linear
    layer's bias is the parameter [_bias], made by [nn.Parameter] and so
    trainable by default. *)
Lemma bias_detached_stated_fails : ~ bias_detached_stated 3 ex_state 0 None true.
Proof.
  intros Hc.
  destruct (Hc ex_prepared ex_group_fc 1 ex_linear (nn_Parameter (Units [[5]; [6]]%Z))
              ex_prepare_eq ex_group_fc_registered)
    as (m' & Hm' & _ & Hslot & _); [by vm_compute..|].
  vm_compute in Hm'. injection Hm' as <-.
  destruct Hslot as [(t & Ht)|(p & Hpar & Hgrad)].
  - vm_compute in Ht. discriminate.
  - vm_compute in Hpar. injection Hpar as <-. discriminate.
Qed.

(** C9, amended.  After [prepare], for every module of a group that owned a
    bias, the bias sits detached in the parameter [_bias], which
    [nn.Parameter] makes trainable by default, and the primary bias reads
    [None]; and every module of a group, with a bias or without, has a bias
    hook installed. *)
Theorem prepare_detaches_bias fuel st root cfg apb st' g a m0 :
  prepare fuel st root cfg apb = Some (Ok st') ->
  g ∈ module_groups (self st') -> g !! "module" = Some (VModule a) ->
  mods (heap st) !! a = Some m0 ->
  exists m',
    mods (heap st') !! a = Some m' /\
    (exists t0, BiasHook t0 apb ∈ _forward_hooks m') /\
    forall p, _parameters m0 !! "bias" = Some (Some p) ->
      getattr (heap st') (VModule a) "bias" = Ok VNone /\
      _parameters m' !! "_bias" =
        Some (Some {| data := detach (data p); requires_grad := true |}).
Proof.
  intros Hp Hg Hga Hm0.
  destruct (prepare_Ok _ _ _ _ _ _ Hp) as (s1 & Hh1 & Hpb1 & _ & _ & Hrun & _).
  rewrite <- Hh1 in Hm0.
  destruct (_prepare_bias_loop a m0 apb _ _ _ Hrun Hm0 Hpb1) as (m' & Hm' & _ & Hhook & Hbias);
    [eauto|].
  exists m'. split_and!; try done.
  intros p Hp0. destruct (Hbias p Hp0) as [Hb1 Hb2]. split; [|done].
  unfold getattr. rewrite Hm'. unfold lookup_attr. by rewrite Hb1.
Qed.

Lemma prepare_detaches_bias_witness :
  exists m',
    prepare 3 ex_state 0 None true = Some (Ok ex_prepared) /\
    mods (heap ex_prepared) !! 1 = Some m' /\
    getattr (heap ex_prepared) (VModule 1) "bias" = Ok VNone /\
    _parameters m' !! "_bias" = Some (Some (nn_Parameter (Units [[5]; [6]]%Z))).
Proof.
  destruct (prepare_detaches_bias 3 ex_state 0 None true ex_prepared ex_group_fc 1
              ex_linear ex_prepare_eq ex_group_fc_registered)
    as (m' & Hm' & _ & Hbias); [by vm_compute..|].
  destruct (Hbias (nn_Parameter (Units [[5]; [6]]%Z))) as [Hb1 Hb2]; [by vm_compute|].
  exists m'. split; [apply ex_prepare_eq|done].
Defined.

(** ** C4: [prepare], then [squash_mask] *)

Lemma remove_units_empty i rows : remove_units ∅ i rows = rows.
Proof.
  revert i. induction rows as [|r rows IH]; intros i; simpl; [done|].
  rewrite decide_False by set_solver. by rewrite IH.
Qed.

Lemma zero_units_empty i rows : zero_units ∅ i rows = rows.
Proof.
  revert i. induction rows as [|r rows IH]; intros i; simpl; [done|].
  rewrite decide_False by set_solver. by rewrite IH.
Qed.

Lemma forward_nothing_pruned tr w : pruned_outputs tr = ∅ -> forward tr w = w.
Proof.
  intros Hp. unfold forward. destruct w as [v|rows]; [done|]. rewrite Hp.
  destruct (t_cls tr); by rewrite ?remove_units_empty, ?zero_units_empty.
Qed.

Lemma apply_chain_nothing_pruned ts chain w :
  (forall t, t ∈ chain -> exists tr, ts !! t = Some tr /\ pruned_outputs tr = ∅) ->
  apply_chain ts chain w = w.
Proof.
  revert w. induction chain as [|t chain IH]; intros w Hall; simpl; [done|].
  destruct (Hall t) as (tr & -> & Hp); [apply list_elem_of_here|].
  rewrite forward_nothing_pruned by done. apply IH.
  intros t' Ht'. apply Hall. by apply list_elem_of_further.
Qed.

Lemma stored_weight_store m w w' :
  stored_weight m = Some w ->
  stored_weight (store_weight m w') = Some w' /\
  (forall k, k <> "weight" ->
     _parameters (store_weight m w') !! k = _parameters m !! k /\
     _buffers (store_weight m w') !! k = _buffers m !! k) /\
  cls (store_weight m w') = cls m /\
  _forward_hooks (store_weight m w') = _forward_hooks m.
Proof.
  unfold stored_weight, store_weight.
  destruct (_parameters m !! "weight") as [[p|]|] eqn:Hp; [|done|].
  - intros _. simpl. rewrite lookup_insert_eq. split_and!; try done.
    intros k Hk. by rewrite lookup_insert_ne.
  - destruct (_buffers m !! "weight") as [[t|]|] eqn:Hb; try done.
    intros _. simpl. rewrite Hp, lookup_insert_eq. split_and!; try done.
    intros k Hk. by rewrite lookup_insert_ne.
Qed.

Lemma stored_weight_same m m' :
  _parameters m' !! "weight" = _parameters m !! "weight" ->
  _buffers m' !! "weight" = _buffers m !! "weight" ->
  stored_weight m' = stored_weight m.
Proof. unfold stored_weight. by intros -> ->. Qed.

Lemma squash_mask_body_effect st cfg st' :
  squash_mask_body false st cfg = Ok st' ->
  exists a m w m',
    cfg !! "module" = Some (VModule a) /\
    mods (heap st) !! a = Some m /\
    parametrizations_weight m <> [] /\
    stored_weight m = Some w /\
    heap st' = set_mod (heap st) a m' /\
    self st' = self st /\ events st' = events st /\
    cls m' = cls m /\
    _forward_hooks m' = _forward_hooks m /\
    parametrizations_weight m' = [] /\
    stored_weight m' =
      Some (apply_chain (trans (heap st)) (parametrizations_weight m) w) /\
    (forall k, k <> "weight" -> k <> "mask" ->
       _parameters m' !! k = _parameters m !! k /\ _buffers m' !! k = _buffers m !! k) /\
    (_parameters m !! "mask" = None ->
       _parameters m' !! "mask" = None /\ _buffers m' !! "mask" = None).
Proof.
  unfold squash_mask_body. intros Hb.
  apply bind_Ok in Hb as (v & Hv & Hb). apply group_module_ref in Hv.
  apply bind_Ok in Hb as (h1 & H1 & Hb).
  apply bind_Ok in Hb as ([a m1] & Hm1 & Hb).
  unfold dict_getattr_mask in Hb.
  apply bind_Ok in Hb as (h3 & H3 & Hb). injection Hb as <-.
  apply the_module_Ok in Hm1 as [-> Hm1].
  unfold remove_parametrizations in H1.
  apply bind_Ok in H1 as ([a' m] & Hm & H1). apply the_module_Ok in Hm as [[= <-] Hm].
  destruct (parametrizations_weight m) as [|t0 chain] eqn:Hch; [discriminate|].
  destruct (stored_weight m) as [w|] eqn:Hw; [|discriminate].
  injection H1 as <-. rewrite set_mod_lookup in Hm1. injection Hm1 as <-.
  destruct (stored_weight_store m w (apply_chain (trans (heap st)) (t0 :: chain) w) Hw)
    as (Hsw & Hother & Hcls & Hhk).
  set (m1 := store_weight m _) in *.
  unfold delattr in H3. rewrite (the_module_at _ a _ (set_mod_lookup _ _ _)) in H3.
  simpl in H3.
  assert (_parameters m1 !! "mask" = _parameters m !! "mask" /\
          _buffers m1 !! "mask" = _buffers m !! "mask") as [Hpm Hbm] by (by apply Hother).
  assert (forall m2, cls m2 = cls m1 -> _forward_hooks m2 = _forward_hooks m1 ->
            parametrizations_weight m2 = [] ->
            _parameters m2 !! "weight" = _parameters m1 !! "weight" ->
            _buffers m2 !! "weight" = _buffers m1 !! "weight" ->
            (forall k, k <> "weight" -> k <> "mask" ->
               _parameters m2 !! k = _parameters m1 !! k /\ _buffers m2 !! k = _buffers m1 !! k) ->
            (_parameters m !! "mask" = None ->
               _parameters m2 !! "mask" = None /\ _buffers m2 !! "mask" = None) ->
            cls m2 = cls m /\ _forward_hooks m2 = _forward_hooks m /\
            parametrizations_weight m2 = [] /\
            stored_weight m2 = Some (apply_chain (trans (heap st)) (t0 :: chain) w) /\
            (forall k, k <> "weight" -> k <> "mask" ->
               _parameters m2 !! k = _parameters m !! k /\ _buffers m2 !! k = _buffers m !! k) /\
            (_parameters m !! "mask" = None ->
               _parameters m2 !! "mask" = None /\ _buffers m2 !! "mask" = None)) as Hfin.
  { intros m2 Hc2 Hh2 Hch2 Hwp Hwb Hk2 Hmask2. split_and!; try done.
    - congruence.
    - congruence.
    - rewrite <- Hsw. by apply stored_weight_same.
    - intros k Hk1 Hk2'. destruct (Hk2 k Hk1 Hk2') as [-> ->]. by apply Hother. }
  assert (forall m2, h3 = set_mod (set_mod (heap st) a (with_chain m1 [])) a m2 ->
            heap (with_heap st h3) = set_mod (heap st) a m2) as Hheap.
  { intros m2 ->. unfold set_mod. simpl. by rewrite insert_insert_eq. }
  destruct (_parameters m1 !! "mask") as [pm|] eqn:Hp1.
  - injection H3 as H3. symmetry in H3. eexists a, m, w, _.
    split; [exact Hv|]. split; [exact Hm|]. split; [by rewrite Hch|]. split; [done|].
    split; [by apply Hheap|]. split; [done|]. split; [done|]. rewrite Hch. apply Hfin; simpl; try done.
    + by rewrite lookup_delete_ne.
    + intros k Hk1 Hk2. by rewrite lookup_delete_ne.
    + intros Hnone. congruence.
  - destruct (_buffers m1 !! "mask") as [bm|] eqn:Hb1.
    + injection H3 as H3. symmetry in H3. eexists a, m, w, _.
      split; [exact Hv|]. split; [exact Hm|]. split; [by rewrite Hch|]. split; [done|].
    split; [by apply Hheap|]. split; [done|]. split; [done|]. rewrite Hch. apply Hfin; simpl; try done.
      * by rewrite lookup_delete_ne.
      * intros k Hk1 Hk2. by rewrite lookup_delete_ne.
      * intros _. by rewrite lookup_delete_eq.
    + destruct (assoc "mask" (_modules m1)) as [cm|] eqn:Hc1; [|discriminate].
      injection H3 as H3. symmetry in H3. eexists a, m, w, _.
      split; [exact Hv|]. split; [exact Hm|]. split; [by rewrite Hch|]. split; [done|].
    split; [by apply Hheap|]. split; [done|]. split; [done|]. rewrite Hch. apply Hfin; simpl; try done.
Qed.

Lemma squash_loop a m0 pb len0 n m1 ts1 groups s s' :
  module_prepared len0 pb n m0 m1 ts1 ->
  for_each (squash_mask_body false) groups s = Ok s' ->
  mods (heap s) !! a = Some m1 -> trans (heap s) = ts1 ->
  (exists g, g ∈ groups /\ g !! "module" = Some (VModule a)) ->
  squashed a m0 pb s'.
Proof.
  intros Hmp Hrun Hm1 Hts Hex.
  eapply (for_each_first_hit (squash_mask_body false)
            (fun s => mods (heap s) !! a = Some m1 /\ trans (heap s) = ts1)
            (squashed a m0 pb)
            (fun g => g !! "module" = Some (VModule a))); try done.
  - intros s1 g s2 Hb [Hm Ht] Hmiss.
    destruct (squash_mask_body_effect _ _ _ Hb)
      as (a' & m & w & m' & Hc & Hma & _ & _ & Hh & _).
    assert (a' <> a) by congruence.
    rewrite Hh. simpl. by rewrite lookup_insert_ne.
  - intros s1 g s2 Hb [Hm Ht] Hhit.
    destruct (squash_mask_body_effect _ _ _ Hb)
      as (a' & m & w & m' & Hc & Hma & _ & Hw & Hh & _ & _ & _ & Hhk & Hch & Hsw & Hk & Hmask).
    assert (a' = a) as -> by congruence. assert (m = m1) as -> by congruence.
    destruct Hmp as [Hcls Hwp Hwb Hmkp Hmkb Hne Hchain Hhook Hbias].
    rewrite apply_chain_nothing_pruned in Hsw.
    2:{ intros t Ht'. rewrite Ht. destruct (Hchain t Ht') as (_ & tr & ? & ? & ?). eauto. }
    exists m', w. rewrite Hh. simpl. rewrite lookup_insert_eq.
    destruct (Hmask Hmkp) as [Hmp' Hmb'].
    split_and!; try done.
    + rewrite <- Hw. symmetry. by apply stored_weight_same.
    + by rewrite Hhk.
    + intros p Hp. destruct (Hbias p Hp) as [Hb1 Hb2].
      destruct (Hk "bias") as [-> _]; [done..|].
      destruct (Hk "_bias") as [-> _]; done.
  - intros s1 g s2 Hb (m & w & Hm & Hw0 & Hw & Hch & Hrest).
    destruct (squash_mask_body_effect _ _ _ Hb)
      as (a' & ma & wa & m' & Hc & Hma & Hne & _ & Hh & _).
    destruct (decide (a' = a)) as [->|Hneq]; [congruence|].
    exists m, w. rewrite Hh. simpl. by rewrite lookup_insert_ne.
Qed.

(** C4, as stated, fails on [Net(fc, bn)]: after [prepare] and
    [squash_mask] the linear layer's bias reads [None], not the tensor it
    was. *)
Lemma squash_roundtrip_stated_fails : ~ squash_roundtrip_stated 3 ex_state 0 None true.
Proof.
  intros Hc.
  destruct (Hc ex_prepared ex_squashed ex_group_fc 1 ex_linear ex_prepare_eq
              ex_squash_eq ex_group_fc_registered)
    as (_ & Hbias & _); [by vm_compute|by vm_compute|apply ex_linear_fresh|].
  vm_compute in Hbias. discriminate.
Qed.

(** C4, amended.  [prepare] followed at once by [squash_mask] gives every
    fresh module of a group its weight back, value for value, and leaves on
    it no mask, in the parameters or in the buffers, and no transform.  The
    bias is not put back: it stays, value for value, in the parameter
    [_bias], the primary bias stays [None] and the bias hook stays
    installed. *)
Theorem prepare_squash_roundtrip fuel st root cfg apb st1 st2 g a m0 :
  prepare fuel st root cfg apb = Some (Ok st1) ->
  squash_mask false st1 = Ok st2 ->
  g ∈ module_groups (self st1) -> g !! "module" = Some (VModule a) ->
  mods (heap st) !! a = Some m0 -> fresh_module m0 ->
  exists m2,
    mods (heap st2) !! a = Some m2 /\
    getattr (heap st2) (VModule a) "weight" = getattr (heap st) (VModule a) "weight" /\
    (exists w, getattr (heap st) (VModule a) "weight" = Ok (VTensor w)) /\
    parametrizations_weight m2 = [] /\
    _parameters m2 !! "mask" = None /\ _buffers m2 !! "mask" = None /\
    (exists t0, BiasHook t0 apb ∈ _forward_hooks m2) /\
    forall p, _parameters m0 !! "bias" = Some (Some p) ->
      getattr (heap st2) (VModule a) "bias" = Ok VNone /\
      _parameters m2 !! "_bias" = Some (Some (nn_Parameter (detach (data p)))).
Proof.
  intros Hp Hs Hg Hga Hm0 Hfresh.
  destruct (prepare_Ok _ _ _ _ _ _ Hp) as (s1 & Hh1 & Hpb1 & _ & _ & Hrun & _).
  pose proof Hm0 as Hm0'. rewrite <- Hh1 in Hm0'.
  destruct (_prepare_loop_establishes a m0 apb (length (trans (heap st))) s1 Hfresh Hm0'
              _ _ _ Hrun) as (n & m1 & Hn & Hm1 & _ & _ & Hmp).
  { unfold untouched. by rewrite Hh1 in *. }
  { eauto. }
  destruct (squash_loop a m0 apb _ n m1 _ _ _ _ Hmp Hs Hm1 eq_refl)
    as (m2 & w & Hm2 & Hw0 & Hw2 & Hch2 & Hmp2 & Hmb2 & Hhook & Hbias); [eauto|].
  assert (forall h m, stored_weight m = Some w -> parametrizations_weight m = [] ->
                      lookup_attr h m "weight" = Some (VTensor w)) as Hread.
  { intros h m Hw Hch. unfold stored_weight in Hw. unfold lookup_attr, through_chain.
    rewrite Hch. simpl.
    destruct (_parameters m !! "weight") as [[p|]|]; [by injection Hw as ->|done|].
    destruct (_buffers m !! "weight") as [[u|]|]; [by injection Hw as ->|done..]. }
  exists m2. unfold getattr. rewrite Hm2, Hm0.
  rewrite (Hread _ _ Hw2 Hch2), (Hread _ _ Hw0 (fm_chain _ Hfresh)).
  split_and!; eauto.
  intros p Hp0. destruct (Hbias p Hp0) as [Hb1 Hb2]. split; [|done].
  unfold lookup_attr. by rewrite Hb1.
Qed.

Lemma prepare_squash_roundtrip_witness :
  exists m2,
    prepare 3 ex_state 0 None true = Some (Ok ex_prepared) /\
    squash_mask false ex_prepared = Ok ex_squashed /\
    mods (heap ex_squashed) !! 1 = Some m2 /\
    getattr (heap ex_squashed) (VModule 1) "weight"
    = getattr (heap ex_state) (VModule 1) "weight" /\
    parametrizations_weight m2 = [] /\
    _parameters m2 !! "mask" = None /\ _buffers m2 !! "mask" = None.
Proof.
  destruct (prepare_squash_roundtrip 3 ex_state 0 None true ex_prepared ex_squashed
              ex_group_fc 1 ex_linear ex_prepare_eq ex_squash_eq ex_group_fc_registered)
    as (m2 & Hm2 & Hw & _ & Hch & Hmp & Hmb & _);
    [by vm_compute|by vm_compute|apply ex_linear_fresh|].
  exists m2. split_and!; try done; first [apply ex_prepare_eq|apply ex_squash_eq].
Defined.

(** ** The registry [prepare] builds *)

Lemma build_groups_Ok fuel h root dflt entries groups0 groups :
  build_groups fuel h root dflt entries groups0 = Some (Ok groups) ->
  exists new, groups = groups0 ++ new /\
    Forall2 (fun entry g =>
               exists v fqn, local_args dflt entry !! "module" = Some v /\
                 _module_to_fqn fuel h root v "" = Some fqn /\
                 g = <["fqn" := path_value (strip_leading_dot fqn)]> (local_args dflt entry))
            entries new.
Proof.
  revert groups0. induction entries as [|entry entries IH]; intros groups0 Hb; simpl in Hb.
  - injection Hb as <-. exists []. by rewrite app_nil_r.
  - unfold make_group in Hb.
    destruct (local_args dflt entry !! "module") as [v|] eqn:Hv; [|discriminate].
    destruct (_module_to_fqn fuel h root v "") as [fqn|] eqn:Hf; [|discriminate].
    destruct (IH _ Hb) as (new & -> & Hall).
    eexists (_ :: new). rewrite <- app_assoc. split; [done|].
    constructor; [|done]. by exists v, fqn.
Qed.

Lemma prepare_groups fuel st root entries apb st' :
  prepare fuel st root (Some entries) apb = Some (Ok st') ->
  build_groups fuel (heap st) root (defaults (self st)) entries (module_groups (self st))
  = Some (Ok (module_groups (self st'))).
Proof.
  intros Hp. destruct (prepare_Ok _ _ _ _ _ _ Hp) as (s1 & _ & _ & _ & _ & _ & Hg & _).
  unfold prepare in Hp. simpl in Hp.
  destruct (build_groups _ _ _ _ _ _) as [[groups|e]|]; try discriminate.
  injection Hp as Hp. unfold _prepare in Hp. simpl in Hp.
  assert (module_groups (self st') = groups) as ->; [|done].
  apply (for_each_invariant (_prepare_body false)
           (fun s => module_groups (self s) = groups) groups) with (s := 
    (with_self
          {| heap := heap st;
             self := set_module_groups
                  (set_config (set_prepare_args (self st) root (Some entries) apb)
                     (Some entries)) groups;
             events := events st ++ [] |}
          (reset_handles
             (set_module_groups
                (set_config (set_prepare_args (self st) root (Some entries) apb)
                   (Some entries)) groups)))); [|done|done].
  intros s x s' _ Hs Hb. destruct (_prepare_body_self _ _ _ Hb) as (-> & _). done.
Qed.

(** The group [prepare] makes of an entry of its configuration. *)
Lemma prepare_entry_group fuel st root entries apb st' entry v :
  prepare fuel st root (Some entries) apb = Some (Ok st') ->
  entry ∈ entries ->
  local_args (defaults (self st)) entry !! "module" = Some v ->
  exists fqn,
    _module_to_fqn fuel (heap st) root v "" = Some fqn /\
    <["fqn" := path_value (strip_leading_dot fqn)]> (local_args (defaults (self st)) entry)
    ∈ module_groups (self st').
Proof.
  intros Hp Hin Hv. apply prepare_groups in Hp.
  destruct (build_groups_Ok _ _ _ _ _ _ _ Hp) as (new & -> & Hall).
  apply list_elem_of_lookup in Hin as [i Hi].
  destruct (Forall2_lookup_l _ _ _ _ _ Hall Hi) as (g & Hg & v' & fqn & Hv' & Hf & ->).
  assert (v' = v) as -> by congruence.
  exists fqn. split; [done|]. apply elem_of_app. right.
  apply list_elem_of_lookup. eauto.
Qed.

(** ** C7: kinds that are not supported *)

Lemma _prepare_body_type_of st cfg st' v :
  _prepare_body false st cfg = Ok st' ->
  type_of (heap st') v = type_of (heap st) v.
Proof.
  intros Hb.
  destruct (_prepare_body_effect _ _ _ Hb)
    as (a & m & m' & tr & pb & _ & Hm & _ & Hh & _ & _ & _ & _ & _ & _ & Hpm).
  destruct v as [|b| | | |]; try done. unfold type_of. rewrite Hh. simpl.
  destruct (decide (a = b)) as [->|Hne].
  - rewrite lookup_insert_eq, Hm. simpl. by rewrite (pm_cls _ _ _ _ _ _ _ Hpm).
  - by rewrite lookup_insert_ne.
Qed.

Lemma isinstance_type_of h h' v kinds :
  type_of h' v = type_of h v -> isinstance h' v kinds = isinstance h v kinds.
Proof. unfold isinstance. by intros ->. Qed.

(** The loop of [_prepare] does not get past a group whose module is an
    instance of no needs-zeroing and of no supported kind. *)
Lemma _prepare_loop_unsupported groups s s' g v :
  for_each (_prepare_body false) groups s = Ok s' ->
  g ∈ groups -> g !! "module" = Some v ->
  isinstance (heap s) v NEEDS_ZEROS = false ->
  isinstance (heap s) v SUPPORTED_MODULES = false ->
  False.
Proof.
  revert s. induction groups as [|x groups IH]; intros s Hrun Hin Hv Hz Hs.
  - by apply elem_of_nil in Hin.
  - simpl in Hrun. destruct (_prepare_body false s x) as [s1|e] eqn:Hb; [|discriminate].
    apply elem_of_cons in Hin as [->|Hin].
    + destruct (_prepare_body_effect _ _ _ Hb)
        as (a & m & m' & tr & pb & Hc & _ & _ & _ & _ & _ & _ & _ & _ & _ & Hpm).
      assert (v = VModule a) as -> by congruence.
      pose proof (pm_supported _ _ _ _ _ _ _ Hpm Hz). congruence.
    + apply (IH s1 Hrun Hin Hv).
      * by rewrite (isinstance_type_of _ _ _ _ (_prepare_body_type_of _ _ _ v Hb)).
      * by rewrite (isinstance_type_of _ _ _ _ (_prepare_body_type_of _ _ _ v Hb)).
Qed.

Lemma ensure_mask_type_of h v h' u :
  ensure_mask h v = Ok h' -> type_of h' u = type_of h u.
Proof.
  intros He. destruct v as [|a| | | |]; try (by vm_compute in He).
  destruct (mods h !! a) as [m|] eqn:Hm.
  - destruct (ensure_mask_effect _ _ _ _ Hm He) as (b & -> & _).
    destruct u as [|c| | | |]; try done. unfold type_of, set_mod. simpl.
    destruct (decide (a = c)) as [->|Hne].
    + by rewrite lookup_insert_eq, Hm.
    + by rewrite lookup_insert_ne.
  - unfold ensure_mask, getattr_default, weight_shape0, getattr in He.
    rewrite Hm in He. discriminate.
Qed.

Lemma attach_transform_type_of h v cfg dflt h' u :
  attach_transform h v cfg dflt = Ok h' -> type_of h' u = type_of h u.
Proof.
  intros Ha. destruct v as [|a| | | |]; try (by vm_compute in Ha).
  destruct (mods h !! a) as [m|] eqn:Hm.
  - destruct (attach_transform_effect _ _ _ _ _ _ Hm Ha) as (c & t & _ & _ & ->).
    destruct u as [|b| | | |]; try done. unfold type_of. simpl.
    destruct (decide (a = b)) as [->|Hne].
    + by rewrite lookup_insert_eq, Hm.
    + by rewrite lookup_insert_ne.
  - unfold attach_transform, getattr in Ha. rewrite Hm in Ha. discriminate.
Qed.

(** C7, as stated, fails on a class derived from [Linear]: its exact type
    is in neither table, and [prepare] goes through. *)
Lemma unsupported_fails_stated_fails :
  ~ unsupported_fails_stated 3 ex_state 10 [EModule 4] true.
Proof.
  intros Hc.
  assert (prepare 3 ex_state 10 (Some [EModule 4]) true = Some (Raise NotImplementedError))
    as Hp.
  { apply (Hc (EModule 4) (VModule 4)); [apply list_elem_of_here|by vm_compute..]. }
  vm_compute in Hp. discriminate.
Qed.

(** C7, amended.  When the module of an entry is an instance (its class or a
    base of it) of no needs-zeroing kind and of no supported kind, [prepare]
    does not return normally; and at that module, once the mask and the
    transform are on it (it has a weight to take them), the loop of
    [_prepare] raises the unsupported-module error. *)
Theorem prepare_unsupported_fails fuel st root entries apb entry v r :
  prepare fuel st root (Some entries) apb = Some r ->
  entry ∈ entries ->
  local_args (defaults (self st)) entry !! "module" = Some v ->
  isinstance (heap st) v NEEDS_ZEROS = false ->
  isinstance (heap st) v SUPPORTED_MODULES = false ->
  (exists e, r = Raise e) /\
  forall s g h1 h2,
    g !! "module" = Some v ->
    type_of (heap s) v = type_of (heap st) v ->
    ensure_mask (heap s) v = Ok h1 ->
    attach_transform h1 v g PruningParametrization = Ok h2 ->
    _prepare_body false s g = Raise NotImplementedError.
Proof.
  intros Hp Hin Hv Hz Hs. split.
  - destruct r as [st'|e]; [|eauto]. exfalso.
    destruct (prepare_entry_group _ _ _ _ _ _ _ _ Hp Hin Hv) as (fqn & _ & Hg).
    destruct (prepare_Ok _ _ _ _ _ _ Hp) as (s1 & Hh1 & _ & _ & _ & Hrun & _).
    eapply (_prepare_loop_unsupported _ _ _ _ v Hrun Hg); rewrite ?Hh1; try done.
    by rewrite lookup_insert_ne.
  - intros s g h1 h2 Hg Hty H1 H2. unfold _prepare_body, group_module, dict_item.
    rewrite Hg. simpl.
    rewrite (isinstance_type_of _ _ _ _ Hty), Hz. simpl. rewrite H1. simpl.
    rewrite H2. simpl.
    assert (type_of h2 v = type_of (heap st) v) as Hty2.
    { rewrite (attach_transform_type_of _ _ _ _ _ _ H2).
      by rewrite (ensure_mask_type_of _ _ _ _ H1). }
    by rewrite (isinstance_type_of _ _ _ _ Hty2), Hs.
Qed.

Lemma prepare_unsupported_fails_witness :
  prepare 3 ex_state 10 (Some [EModule 6]) true = Some (Raise NotImplementedError) /\
  forall s g h1 h2,
    g !! "module" = Some (VModule 6) ->
    type_of (heap s) (VModule 6) = type_of (heap ex_state) (VModule 6) ->
    ensure_mask (heap s) (VModule 6) = Ok h1 ->
    attach_transform h1 (VModule 6) g PruningParametrization = Ok h2 ->
    _prepare_body false s g = Raise NotImplementedError.
Proof.
  split; [by vm_compute|].
  refine (proj2 (prepare_unsupported_fails 3 ex_state 10 [EModule 6] true (EModule 6)
                   (VModule 6) (Raise NotImplementedError) _ _ _ _ _));
    [by vm_compute|apply list_elem_of_here|by vm_compute..].
Defined.

(** ** C8: a module without a path *)

Lemma for_each_raises {S A : Type} (body : S -> A -> Result S) (l : list A) (x : A) :
  x ∈ l -> (forall s, exists e, body s x = Raise e) ->
  forall s, exists e, for_each body l s = Raise e.
Proof.
  intros Hin Hx. induction l as [|y l IH]; intros s.
  - by apply elem_of_nil in Hin.
  - simpl. destruct (body s y) as [s1|e] eqn:Hb; [|eauto].
    apply elem_of_cons in Hin as [->|Hin]; [|by apply IH].
    destruct (Hx s) as [e He]. congruence.
Qed.

Lemma step_body_no_path `{Policy} s g :
  g !! "fqn" = Some VNone -> step_body true s g = Raise AttributeError.
Proof.
  intros Hg. unfold step_body, group_module, dict_item. rewrite Hg.
  by destruct (model (self s)).
Qed.

(** C8, as stated, fails on [Net(fc, bn)] configured with a linear layer
    that is no part of it: [prepare] returns normally. *)
Lemma unresolvable_fails_stated_fails :
  ~ unresolvable_fails_stated 3 ex_state 0 [EModule 3] true.
Proof.
  intros Hc.
  destruct (Hc (EModule 3) (VModule 3)) as [e He];
    [apply list_elem_of_here|by vm_compute..|].
  vm_compute in He. discriminate.
Qed.

(** C8, amended.  A module of the configuration that has no path in the
    model does not make [prepare] fail: when [prepare] returns, the module's
    group is in the registry with [None] for its path, and the module was
    prepared through its reference.  The failure is deferred: [step], which
    resolves by path, raises [AttributeError] at that group, so with the
    switch on it does not return normally. *)
Theorem prepare_defers_unresolvable `{Policy} fuel st root entries apb st' entry v :
  prepare fuel st root (Some entries) apb = Some (Ok st') ->
  entry ∈ entries ->
  local_args (defaults (self st)) entry !! "module" = Some v ->
  _module_to_fqn fuel (heap st) root v "" = Some None ->
  (exists g, g ∈ module_groups (self st') /\
     g !! "module" = Some v /\ g !! "fqn" = Some VNone /\
     forall s, step_body true s g = Raise AttributeError) /\
  (enable_mask_update (self st) = true -> exists e, step true st' = Raise e).
Proof.
  intros Hp Hin Hv Hf.
  destruct (prepare_entry_group _ _ _ _ _ _ _ _ Hp Hin Hv) as (fqn & Hf' & Hg).
  assert (fqn = None) as -> by congruence. simpl in Hg.
  set (g := <["fqn" := VNone]> (local_args (defaults (self st)) entry)) in *.
  assert (g !! "fqn" = Some VNone) as Hfqn by apply lookup_insert_eq.
  split.
  - exists g. split_and!; try done.
    + unfold g. by rewrite lookup_insert_ne.
    + intros s. by apply step_body_no_path.
  - intros Hen. unfold step.
    destruct (prepare_Ok _ _ _ _ _ _ Hp) as (_ & _ & _ & _ & _ & _ & _ & _ & _ & Hen').
    rewrite Hen', Hen. simpl.
    apply (for_each_raises _ _ g Hg). intros s. exists AttributeError.
    by apply step_body_no_path.
Qed.

Lemma prepare_defers_unresolvable_witness :
  prepare 3 ex_state 0 (Some [EModule 3]) true = Some (Ok ex_prepared_stray) /\
  (exists g, g ∈ module_groups (self ex_prepared_stray) /\
     g !! "module" = Some (VModule 3) /\ g !! "fqn" = Some VNone /\
     forall s, @step_body idle_policy true s g = Raise AttributeError) /\
  exists e, @step idle_policy true ex_prepared_stray = Raise e.
Proof.
  split; [apply ex_prepare_stray_eq|].
  destruct (@prepare_defers_unresolvable idle_policy 3 ex_state 0 [EModule 3] true
              ex_prepared_stray (EModule 3) (VModule 3) ex_prepare_stray_eq)
    as [Hg Hstep]; [apply list_elem_of_here|by vm_compute..|].
  split; [exact Hg|]. apply Hstep. by vm_compute.
Defined.

(** ** C6: [step] with the switch on *)



Lemma group_module_false_ref st g v :
  group_module false st g = Ok v -> g !! "module" = Some v.
Proof. apply group_module_ref. Qed.




(** ** C10: classes derived from a kind of the tables *)







(** ** C2: the path resolver *)

Lemma string_app_cons c (s t : string) : String c s +:+ t = String c (s +:+ t).
Proof. reflexivity. Qed.

Lemma string_app_nil_l (t : string) : "" +:+ t = t.
Proof. reflexivity. Qed.

Lemma string_app_assoc (s1 s2 s3 : string) : (s1 +:+ s2) +:+ s3 = s1 +:+ s2 +:+ s3.
Proof.
  induction s1 as [|c s1 IH]; [done|]. by rewrite !string_app_cons, IH.
Qed.

Lemma string_app_nil_r (s : string) : s +:+ "" = s.
Proof. induction s as [|c s IH]; [done|]. by rewrite string_app_cons, IH. Qed.

(** *** [split] *)

Lemma split_nonempty sep s : split sep s <> [].
Proof.
  destruct s as [|c s]; simpl; [done|].
  destruct (decide (c = sep)); [done|]. by destruct (split sep s).
Qed.






(** *** [named_children] *)

Lemma named_children_from_sound memo cs name c :
  (name, c) ∈ named_children_from memo cs -> (name, Some c) ∈ cs.
Proof.
  revert memo. induction cs as [|[n [c'|]] cs IH]; intros memo; simpl.
  - by intros ?%elem_of_nil.
  - destruct (decide (c' ∈ memo)).
    + intros Hin. apply list_elem_of_further. by eapply IH.
    + intros [[= -> ->]|Hin]%elem_of_cons; [apply list_elem_of_here|].
      apply list_elem_of_further. by eapply IH.
  - intros Hin. apply list_elem_of_further. by eapply IH.
Qed.

Lemma named_children_from_complete memo cs name c :
  (name, Some c) ∈ cs -> c ∈ memo \/ exists name', (name', c) ∈ named_children_from memo cs.
Proof.
  revert memo. induction cs as [|[n [c'|]] cs IH]; intros memo; simpl.
  - by intros ?%elem_of_nil.
  - intros [[= -> ->]|Hin]%elem_of_cons.
    + destruct (decide (c' ∈ memo)); [by left|]. right. exists n. apply list_elem_of_here.
    + destruct (decide (c' ∈ memo)).
      * by apply IH.
      * destruct (IH (c' :: memo) Hin) as [[->|Hm]%elem_of_cons|[name' Hn]].
        -- right. exists n. apply list_elem_of_here.
        -- by left.
        -- right. exists name'. by apply list_elem_of_further.
  - intros [[=]|Hin]%elem_of_cons. by apply IH.
Qed.

Lemma named_children_sound h a name c :
  (name, c) ∈ named_children h a -> child_of h a name c.
Proof.
  unfold named_children, child_of. destruct (mods h !! a) as [m|]; [|by intros ?%elem_of_nil].
  intros Hin. exists m. split; [done|]. by eapply named_children_from_sound.
Qed.

Lemma named_children_complete h a name c :
  child_of h a name c -> exists name', (name', c) ∈ named_children h a.
Proof.
  intros (m & Hm & Hin). unfold named_children. rewrite Hm.
  destruct (named_children_from_complete [] _ _ _ Hin) as [?%elem_of_nil|?]; done.
Qed.

(** *** [_module_to_fqn] *)

Lemma fqn_loop_sound (rec : addr -> string -> option (option string)) h a b prefix cs p :
  (forall name c, (name, c) ∈ cs -> child_of h a name c) ->
  (forall c new_name q, rec c new_name = Some (Some q) ->
     exists names, names <> [] /\ q = new_name +:+ dotted names /\
                   child_path h c names b) ->
  fqn_loop rec (VModule b) prefix cs = Some (Some p) ->
  exists names, names <> [] /\ p = prefix +:+ dotted names /\ child_path h a names b.
Proof.
  intros Hcs Hrec. induction cs as [|[name c] cs IH]; simpl; [done|].
  destruct (decide (VModule c = VModule b)) as [[= ->]|Hne].
  - intros [= <-]. exists [name]. split_and!; try done.
    + simpl. by rewrite string_app_nil_r.
    + econstructor; [|constructor]. apply Hcs, list_elem_of_here.
  - destruct (rec c (prefix +:+ "." +:+ name)) as [[q|]|] eqn:Hr; [| |done].
    + intros [= <-]. destruct (Hrec _ _ _ Hr) as (names & Hne' & -> & Hpath).
      exists (name :: names). split_and!; try done.
      * simpl. by rewrite !string_app_assoc.
      * econstructor; [|done]. apply Hcs, list_elem_of_here.
    + intros Hl. apply IH; [|done]. intros n c' Hin. apply Hcs. by apply list_elem_of_further.
Qed.

Lemma _module_to_fqn_sound fuel h a b prefix p :
  _module_to_fqn fuel h a (VModule b) prefix = Some (Some p) ->
  exists names, names <> [] /\ p = prefix +:+ dotted names /\ child_path h a names b.
Proof.
  revert a prefix p. induction fuel as [|fuel IH]; intros a prefix p; simpl; [done|].
  intros Hl. eapply fqn_loop_sound in Hl; [done| |].
  - intros name c. apply named_children_sound.
  - intros c new_name q. apply IH.
Qed.

Lemma fqn_loop_total (rec : addr -> string -> option (option string)) layer prefix cs :
  (forall name c new_name, (name, c) ∈ cs -> rec c new_name <> None) ->
  fqn_loop rec layer prefix cs <> None.
Proof.
  intros Hrec. induction cs as [|[name c] cs IH]; simpl; [done|].
  destruct (decide (VModule c = layer)); [done|].
  destruct (rec c (prefix +:+ "." +:+ name)) as [[q|]|] eqn:Hr; [done| |].
  - apply IH. intros xn xc xq Hxin. apply Hrec with xn. by apply list_elem_of_further.
  - by destruct (Hrec name c (prefix +:+ "." +:+ name) (list_elem_of_here _ _)).
Qed.

Lemma depth_bounded_children d h a name c :
  depth_bounded (S d) h a = true -> (name, c) ∈ named_children h a ->
  depth_bounded d h c = true.
Proof.
  simpl. intros Hall Hin. rewrite forallb_forall in Hall.
  by apply (Hall (name, c)), list_elem_of_In.
Qed.

Lemma _module_to_fqn_total d fuel h a layer prefix :
  depth_bounded d h a = true -> d <= fuel ->
  _module_to_fqn fuel h a layer prefix <> None.
Proof.
  revert d a prefix. induction fuel as [|fuel IH]; intros d a prefix Hd Hle.
  - destruct d; [done|lia].
  - destruct d as [|d]; [done|]. simpl. apply fqn_loop_total.
    intros name c new_name Hin. apply (IH d); [|lia].
    by eapply depth_bounded_children.
Qed.

Lemma fqn_loop_finds (rec : addr -> string -> option (option string)) layer prefix cs name c :
  (forall name c new_name, (name, c) ∈ cs -> rec c new_name <> None) ->
  (name, c) ∈ cs ->
  (VModule c = layer \/ forall new_name, exists q, rec c new_name = Some (Some q)) ->
  exists p, fqn_loop rec layer prefix cs = Some (Some p).
Proof.
  intros Hrec Hin Hc. induction cs as [|[n c'] cs IH]; [by apply elem_of_nil in Hin|].
  simpl. destruct (decide (VModule c' = layer)); [eauto|].
  destruct (rec c' (prefix +:+ "." +:+ n)) as [[q|]|] eqn:Hr; [eauto| |].
  - apply elem_of_cons in Hin as [[= <- <-]|Hin].
    + destruct Hc as [Hc|Hc]; [done|]. destruct (Hc (prefix +:+ "." +:+ name)). congruence.
    + apply IH; [|done]. intros xn xc xq Hxin. apply Hrec with xn. by apply list_elem_of_further.
  - by destruct (Hrec n c' (prefix +:+ "." +:+ n) (list_elem_of_here _ _)).
Qed.

Lemma _module_to_fqn_finds d fuel h a names b prefix :
  depth_bounded d h a = true -> d <= fuel ->
  names <> [] -> child_path h a names b ->
  exists p, _module_to_fqn fuel h a (VModule b) prefix = Some (Some p).
Proof.
  revert d a names prefix. induction fuel as [|fuel IH]; intros d a names prefix Hd Hle Hne Hpath.
  - destruct d; [done|lia].
  - destruct d as [|d]; [done|]. simpl.
    destruct Hpath as [|a name c names b Hchild Hpath]; [done|].
    destruct (named_children_complete _ _ _ _ Hchild) as [name' Hin].
    apply fqn_loop_finds with name' c; [|done|].
    + intros n c' nn Hin'. apply (_module_to_fqn_total d); [|lia].
      by eapply depth_bounded_children.
    + destruct names as [|n2 names].
      * left. by inversion Hpath.
      * right. intros new_name. apply (IH d _ (n2 :: names)); [|lia|done|done].
        by eapply depth_bounded_children.
Qed.








(** ** C3: auto-discovery *)

Lemma manual_update_supported h v :
  type_in h v NEEDS_MANUAL_UPDATE = true -> type_in h v SUPPORTED_MODULES = true.
Proof.
  unfold type_in. destruct (type_of h v) as [t|]; [|done].
  intros Hm%bool_decide_eq_true. apply bool_decide_eq_true.
  unfold NEEDS_MANUAL_UPDATE in Hm. apply list_elem_of_singleton in Hm as ->.
  unfold SUPPORTED_MODULES. set_solver.
Qed.

(** The loop over the children: the supported ones go to the configuration,
    the others on the stack, and no warning is ever given. *)
Lemma fold_visit_child h apb cs cfg stack ev :
  fold_left (visit_child h apb) cs (cfg, stack, ev) =
  (cfg ++ filter (fun c => supported h c = true) cs.*2,
   stack ++ filter (fun c => supported h c = false) cs.*2, ev).
Proof.
  revert cfg stack. induction cs as [|[name c] cs IH]; intros cfg stack; simpl.
  - by rewrite !app_nil_r.
  - destruct (type_in h (VModule c) SUPPORTED_MODULES) eqn:Hs.
    + rewrite IH. rewrite filter_cons_True by done.
      rewrite filter_cons_False by (unfold supported; congruence).
      by rewrite <- app_assoc.
    + assert (type_in h (VModule c) NEEDS_MANUAL_UPDATE = false) as ->.
      { destruct (type_in h (VModule c) NEEDS_MANUAL_UPDATE) eqn:Hm; [|done].
        apply manual_update_supported in Hm. congruence. }
      simpl. rewrite IH. rewrite filter_cons_False by (unfold supported; congruence).
      rewrite filter_cons_True by done. by rewrite <- app_assoc.
Qed.

Lemma list_pop_snoc {A} (l : list A) x : list_pop (l ++ [x]) = Some (x, l).
Proof. unfold list_pop. by rewrite rev_unit, rev_involutive. Qed.

Lemma list_pop_cases {A} (l : list A) :
  (l = [] /\ list_pop l = None) \/ exists x l', l = l' ++ [x] /\ list_pop l = Some (x, l').
Proof.
  destruct l as [|y l] using rev_ind; [by left|].
  right. exists y, l. by rewrite list_pop_snoc.
Qed.

Lemma depth_bounded_mono d d' h a :
  depth_bounded d h a = true -> d <= d' -> depth_bounded d' h a = true.
Proof.
  revert d' a. induction d as [|d IH]; intros d' a; [done|].
  destruct d' as [|d']; [lia|]. simpl. rewrite !forallb_forall.
  intros Hall Hle x Hx. apply IH; [by apply Hall|lia].
Qed.

Lemma depth_bounded_child d h a c :
  depth_bounded (S d) h a = true -> c ∈ (named_children h a).*2 ->
  depth_bounded d h c = true.
Proof.
  intros Hd ([name c'] & -> & Hin)%list_elem_of_fmap.
  by eapply depth_bounded_children.
Qed.

Lemma collect_stable d d' h a :
  depth_bounded d h a = true -> d <= d' -> collect d' h a = collect d h a.
Proof.
  revert d' a. induction d as [|d IH]; intros d' a Hd Hle; [done|].
  destruct d' as [|d']; [lia|]. simpl. f_equal. f_equal.
  apply Forall_fmap_ext_1, Forall_forall. intros c Hc.
  apply IH; [|lia]. apply (depth_bounded_child d h a); [done|].
  rewrite elem_of_reverse in Hc. by apply list_elem_of_filter in Hc as [_ Hc].
Qed.

(** What the traversal returns, whenever it returns: the configuration it
    was given, then what is collected from the stack, top first; and the
    warnings it was given, no more. *)
Lemma discover_Some d fuel h apb stack cfg ev cfg' ev' :
  Forall (fun a => depth_bounded d h a = true) stack ->
  discover fuel h apb stack cfg ev = Some (cfg', ev') ->
  cfg' = cfg ++ mjoin (collect d h <$> reverse stack) /\ ev' = ev.
Proof.
  revert stack cfg cfg' ev'.
  induction fuel as [|fuel IH]; intros stack cfg cfg' ev' Hstack; simpl; [done|].
  destruct (list_pop_cases stack) as [[-> ->]|(module & stack' & -> & ->)].
  - intros [= <- <-]. simpl. by rewrite app_nil_r.
  - rewrite fold_visit_child. intros Hd.
    apply Forall_app in Hstack as [Hstack' Hmod]. rewrite Forall_singleton in Hmod.
    destruct d as [|d]; [by simpl in Hmod|].
    apply IH in Hd as [-> ->].
    2:{ apply Forall_app. split; [done|]. apply Forall_forall. intros c Hc.
        apply list_elem_of_filter in Hc as [_ Hc].
        apply (depth_bounded_mono d); [|lia]. by apply (depth_bounded_child d h module). }
    split; [|done]. rewrite reverse_snoc, reverse_app, !fmap_app, !join_app.
    rewrite fmap_cons, <- app_assoc. f_equal.
    change (mjoin (collect (S d) h module :: (collect (S d) h <$> reverse stack')))
      with ((filter (fun c => supported h c = true) (named_children h module).*2
             ++ mjoin (collect d h <$> reverse
                         (filter (fun c => supported h c = false)
                            (named_children h module).*2)))
            ++ mjoin (collect (S d) h <$> reverse stack')).
    rewrite <- app_assoc. do 3 f_equal.
    apply Forall_fmap_ext_1, Forall_forall. intros c Hc.
    apply collect_stable; [|lia]. apply (depth_bounded_child d h module); [done|].
    rewrite elem_of_reverse in Hc. by apply list_elem_of_filter in Hc as [_ Hc].
Qed.

(** With fuel for every module it pops, the traversal returns. *)
Lemma discover_total d fuel h apb stack cfg ev :
  Forall (fun a => depth_bounded d h a = true) stack ->
  sum_list (traversal_size d h <$> stack) < fuel ->
  discover fuel h apb stack cfg ev <> None.
Proof.
  revert stack cfg. induction fuel as [|fuel IH]; intros stack cfg Hstack Hfuel; [lia|].
  simpl. destruct (list_pop_cases stack) as [[-> ->]|(module & stack' & -> & ->)]; [done|].
  rewrite fold_visit_child.
  apply Forall_app in Hstack as [Hstack' Hmod]. rewrite Forall_singleton in Hmod.
  destruct d as [|d]; [by simpl in Hmod|].
  rewrite fmap_app, sum_list_with_app in Hfuel.
  assert (sum_list (traversal_size (S d) h <$> [module])
          = S (sum_list (traversal_size d h <$>
                 filter (fun c => supported h c = false) (named_children h module).*2)))
    as Hm by (simpl; lia).
  rewrite Hm in Hfuel. clear Hm.
  apply IH.
  - apply Forall_app. split; [done|]. apply Forall_forall. intros c Hc.
    apply list_elem_of_filter in Hc as [_ Hc].
    apply (depth_bounded_mono d); [|lia]. by apply (depth_bounded_child d h module).
  - rewrite fmap_app, sum_list_with_app.
    assert (sum_list (traversal_size (S d) h <$>
               filter (fun c => supported h c = false) (named_children h module).*2)
            = sum_list (traversal_size d h <$>
               filter (fun c => supported h c = false) (named_children h module).*2)) as ->.
    { f_equal. apply Forall_fmap_ext_1, Forall_forall. intros c Hc.
      apply list_elem_of_filter in Hc as [_ Hc].
      pose proof (depth_bounded_child d h module c Hmod Hc) as Hdc.
      clear -Hdc. revert c Hdc. induction d as [|d IHd]; intros c Hdc; [done|].
      change (S (sum_list (traversal_size (S d) h <$>
                filter (fun c0 => supported h c0 = false) (named_children h c).*2))
              = S (sum_list (traversal_size d h <$>
                filter (fun c0 => supported h c0 = false) (named_children h c).*2))).
      do 2 f_equal. apply Forall_fmap_ext_1, Forall_forall. intros c' Hc'.
      apply list_elem_of_filter in Hc' as [_ Hc'].
      apply IHd. by apply (depth_bounded_child d h c). }
    lia.
Qed.

(** *** What is collected *)

Lemma collect_discovered d h a x : x ∈ collect d h a -> discovered_from h a x.
Proof.
  revert a. induction d as [|d IH]; intros a; simpl; [by intros ?%elem_of_nil|].
  intros [Hx|Hx]%elem_of_app.
  - apply list_elem_of_filter in Hx as [Hs Hx].
    apply list_elem_of_fmap in Hx as ([name c] & -> & Hin).
    eapply discovered_child; [by apply named_children_sound|done].
  - apply list_elem_of_join in Hx as (l & Hx & Hl).
    apply list_elem_of_fmap in Hl as (c & -> & Hc). rewrite elem_of_reverse in Hc.
    apply list_elem_of_filter in Hc as [Hs Hc].
    apply list_elem_of_fmap in Hc as ([name c'] & -> & Hin).
    eapply discovered_deeper; [by apply named_children_sound|done|by apply IH].
Qed.

Lemma discovered_collect d h a x :
  discovered_from h a x -> depth_bounded d h a = true -> x ∈ collect d h a.
Proof.
  intros Hdisc. revert d.
  induction Hdisc as [a name c Hchild Hs|a name c x Hchild Hs _ IH]; intros d Hd;
    (destruct d as [|d]; [done|]); simpl; apply elem_of_app;
    destruct (named_children_complete _ _ _ _ Hchild) as [name' Hin];
    assert (c ∈ (named_children h a).*2) as Hc
      by (apply list_elem_of_fmap; by exists (name', c)).
  - left. by apply list_elem_of_filter.
  - right. apply list_elem_of_join. exists (collect d h c). split.
    + apply IH. by apply (depth_bounded_child d h a).
    + apply list_elem_of_fmap. exists c. split; [done|].
      apply elem_of_reverse. by apply list_elem_of_filter.
Qed.

Lemma discovered_supported h a x :
  discovered_from h a x -> type_in h (VModule x) SUPPORTED_MODULES = true.
Proof. by induction 1. Qed.

(** *** No module twice in a tree *)

Lemma collect_children_submseteq (f g : addr -> list addr) (P : addr -> bool) cs :
  (forall c, f c ⊆+ g c) ->
  filter (fun c => P c = true) cs ++ mjoin (f <$> reverse (filter (fun c => P c = false) cs))
  ⊆+ mjoin ((fun c => c :: g c) <$> cs).
Proof.
  intros Hfg. induction cs as [|c cs IH]; [done|].
  simpl. destruct (P c) eqn:Hc.
  - rewrite filter_cons_True by done. rewrite filter_cons_False by congruence.
    simpl. apply submseteq_skip. by apply submseteq_inserts_l.
  - rewrite filter_cons_False by congruence. rewrite filter_cons_True by done.
    rewrite reverse_cons, fmap_app, join_app. simpl. rewrite app_nil_r.
    rewrite app_assoc. rewrite (comm (++) _ (f c)).
    apply submseteq_cons. by apply submseteq_app.
Qed.

Lemma collect_descendants d h a : collect d h a ⊆+ descendants d h a.
Proof.
  revert a. induction d as [|d IH]; intros a; [done|].
  simpl. apply (collect_children_submseteq (collect d h) (descendants d h) (supported h)).
  apply IH.
Qed.

Lemma collect_NoDup d h a : NoDup (descendants d h a) -> NoDup (collect d h a).
Proof.
  intros Hnd. destruct (submseteq_Permutation _ _ (collect_descendants d h a)) as [k Hk].
  rewrite Hk in Hnd. by apply NoDup_app in Hnd as [? _].
Qed.

(** The traversal from the root alone, with fuel for what it pops. *)
Lemma discover_returns d fuel h apb root :
  depth_bounded d h root = true -> traversal_size d h root < fuel ->
  discover fuel h apb [root] [] [] = Some (collect d h root, []).
Proof.
  intros Hd Hfuel.
  destruct (discover fuel h apb [root] [] []) as [[cfg ev]|] eqn:Hdisc.
  - apply (discover_Some d) in Hdisc as [-> ->]; [|by apply Forall_singleton].
    simpl. by rewrite app_nil_r.
  - exfalso. revert Hdisc. apply (discover_total d); [by apply Forall_singleton|].
    simpl. lia.
Qed.

Lemma prepare_registry fuel st root cfg apb st' :
  prepare fuel st root cfg apb = Some (Ok st') ->
  exists entries ev,
    resolve_config fuel (heap st) root cfg apb = Some (entries, ev) /\
    build_groups fuel (heap st) root (defaults (self st)) entries (module_groups (self st))
    = Some (Ok (module_groups (self st'))) /\
    events st' = events st ++ ev.
Proof.
  unfold prepare. intros Hp.
  destruct (resolve_config _ _ _ _ _) as [[entries ev]|]; [|discriminate].
  simpl in Hp.
  destruct (build_groups _ _ _ _ _ _) as [[groups|e]|] eqn:Hbg; try discriminate.
  injection Hp as Hp. unfold _prepare in Hp. simpl in Hp.
  match type of Hp with for_each _ _ ?s = _ => set (s1 := s) in * end.
  assert (module_groups (self st') = groups /\ events st' = events st ++ ev) as [Hg He].
  { apply (for_each_invariant (_prepare_body false)
             (fun s => module_groups (self s) = groups /\ events s = events st ++ ev)
             groups) with (s := s1); [|split; reflexivity|exact Hp].
    intros s x s' _ [Hg He] Hb.
    destruct (_prepare_body_self _ _ _ Hb) as (-> & _ & _ & _ & ->). done. }
  exists entries, ev. rewrite Hg, He. simpl in Hbg. done.
Qed.

Lemma local_args_module dflt a : local_args dflt (EModule a) !! "module" = Some (VModule a).
Proof.
  unfold local_args. apply lookup_union_Some_l. apply lookup_singleton_eq.
Qed.

(** C3, as stated, fails on [Net(fc, bn)]: the batch-norm layer, of a
    manual-update kind, is registered. *)
Lemma discovery_stated_fails : ~ discovery_stated 3 ex_state 0 true.
Proof.
  intros Hc.
  destruct (Hc ex_prepared ["bn"] 2 ex_prepare_eq) as [_ Hskip]; [done| |].
  - econstructor; [|constructor]. exists ex_net. split; [by vm_compute|].
    apply list_elem_of_further, list_elem_of_here.
  - apply Hskip; [by vm_compute|]. exists ex_group_bn. split; [|by vm_compute].
    vm_compute. apply list_elem_of_further, list_elem_of_here.
Qed.

(** C3, amended.  [prepare] without a configuration appends to the registry
    one group for each module the traversal finds, in the order it finds
    them.  A module is found if and only if it is a child of the root, or of
    a module of another than a supported type that the traversal went
    through, and its exact type is supported; so every module found is of a
    supported type, those of a manual-update kind among them.  In a model
    where no module sits at two places, no module is found twice. *)
Theorem prepare_discovers fuel st root apb st' d :
  prepare fuel st root None apb = Some (Ok st') ->
  depth_bounded d (heap st) root = true ->
  exists found new,
    module_groups (self st') = module_groups (self st) ++ new /\
    Forall2 (fun x g => g !! "module" = Some (VModule x)) found new /\
    (forall x, x ∈ found <-> discovered_from (heap st) root x) /\
    (forall x, x ∈ found -> type_in (heap st) (VModule x) SUPPORTED_MODULES = true) /\
    (NoDup (descendants d (heap st) root) -> NoDup found).
Proof.
  intros Hp Hd.
  destruct (prepare_registry _ _ _ _ _ _ Hp) as (entries & ev & Hres & Hbuild & _).
  unfold resolve_config in Hres.
  destruct (discover fuel (heap st) apb [root] [] []) as [[found ev']|] eqn:Hdisc;
    [|discriminate].
  injection Hres as <- <-.
  apply (discover_Some d) in Hdisc as [Hfound _]; [|by apply Forall_singleton].
  simpl in Hfound. rewrite app_nil_r in Hfound. subst found.
  destruct (build_groups_Ok _ _ _ _ _ _ _ Hbuild) as (new & Hnew & Hall).
  exists (collect d (heap st) root), new. split_and!; [done| | | |].
  - apply Forall2_fmap_l in Hall. eapply Forall2_impl; [exact Hall|].
    intros x g (v & fqn & Hv & _ & ->). simpl in Hv.
    rewrite local_args_module in Hv. injection Hv as <-.
    rewrite lookup_insert_ne by done. apply local_args_module.
  - intros x. split; [apply collect_discovered|].
    intros Hx. by apply discovered_collect.
  - intros x Hx. eapply discovered_supported. by eapply collect_discovered.
  - apply collect_NoDup.
Qed.

Lemma prepare_discovers_witness :
  exists found new,
    module_groups (self ex_prepared) = module_groups (self ex_state) ++ new /\
    Forall2 (fun x g => g !! "module" = Some (VModule x)) found new /\
    (forall x, x ∈ found <-> discovered_from (heap ex_state) 0 x) /\
    NoDup found.
Proof.
  destruct (prepare_discovers 3 ex_state 0 true ex_prepared 2 ex_prepare_eq)
    as (found & new & Hg & Hall & Hiff & _ & Hnd); [by vm_compute|].
  exists found, new. split_and!; try done.
  apply Hnd. apply (bool_decide_unpack _). by vm_compute.
Defined.

(** ** The registry: order, defaults, errors *)

Lemma local_args_lookup dflt entry k :
  local_args dflt entry !! k =
  match module_config_of entry !! k with
  | Some v => Some v
  | None => dflt !! k
  end.
Proof.
  unfold local_args. fold (module_config_of entry). rewrite lookup_union.
  destruct (module_config_of entry !! k), (dflt !! k); done.
Qed.




(** *** A missing [module] key *)

Lemma build_groups_KeyError d fuel h root dflt entries groups entry :
  depth_bounded d h root = true -> d <= fuel ->
  entry ∈ entries -> local_args dflt entry !! "module" = None ->
  build_groups fuel h root dflt entries groups = Some (Raise KeyError).
Proof.
  intros Hd Hle Hin Hnone. revert groups.
  induction entries as [|e entries IH]; intros groups; [by apply elem_of_nil in Hin|].
  simpl. unfold make_group.
  destruct (local_args dflt e !! "module") as [v|] eqn:Hv.
  - destruct (_module_to_fqn fuel h root v "") as [fqn|] eqn:Hf.
    + apply elem_of_cons in Hin as [->|Hin]; [congruence|]. by apply IH.
    + by destruct (_module_to_fqn_total d fuel h root v "" Hd Hle).
  - done.
Qed.

(** X2.  When an entry of the configuration names no module, in itself or
    through the defaults, [prepare] on a finite model raises [KeyError],
    wherever the entry stands in the configuration and whatever the other
    entries are. *)
Theorem prepare_missing_module_key d fuel st root entries apb entry :
  depth_bounded d (heap st) root = true -> d <= fuel ->
  entry ∈ entries ->
  module_config_of entry !! "module" = None ->
  defaults (self st) !! "module" = None ->
  prepare fuel st root (Some entries) apb = Some (Raise KeyError).
Proof.
  intros Hd Hle Hin He Hdf. unfold prepare. simpl.
  rewrite (build_groups_KeyError d _ _ _ _ _ _ entry); try done.
  by rewrite local_args_lookup, He.
Qed.

Lemma prepare_missing_module_key_witness :
  prepare 3 ex_state 0 (Some [EModule 1; EDict {[ "sparsity_level" := VInt 8 ]}]) true
  = Some (Raise KeyError).
Proof.
  apply (prepare_missing_module_key 2 3 ex_state 0 _ true
           (EDict {[ "sparsity_level" := VInt 8 ]}));
    [by vm_compute|lia|apply list_elem_of_further, list_elem_of_here|by vm_compute..].
Defined.

(** *** No warning *)

Lemma discover_events fuel h apb stack cfg ev cfg' ev' :
  discover fuel h apb stack cfg ev = Some (cfg', ev') -> ev' = ev.
Proof.
  revert stack cfg. induction fuel as [|fuel IH]; intros stack cfg; simpl; [done|].
  destruct (list_pop stack) as [[module stack']|]; [|by intros [= _ <-]].
  rewrite fold_visit_child. apply IH.
Qed.

(** X3.  [prepare] gives no warning, with a configuration or without: the one
    warning it has is in the branch of auto-discovery for modules of another
    than a supported type, and the manual-update kinds it asks for there are
    all supported. *)
Theorem prepare_no_warning fuel st root cfg apb st' :
  prepare fuel st root cfg apb = Some (Ok st') -> events st' = events st.
Proof.
  intros Hp.
  destruct (prepare_registry _ _ _ _ _ _ Hp) as (entries & ev & Hres & _ & ->).
  assert (ev = []) as ->; [|by rewrite app_nil_r].
  unfold resolve_config in Hres. destruct cfg as [c|]; [by injection Hres as _ <-|].
  destruct (discover fuel (heap st) apb [root] [] []) as [[found ev']|] eqn:Hd;
    [|discriminate].
  injection Hres as _ <-. by apply discover_events in Hd.
Qed.

Lemma prepare_no_warning_witness : events ex_prepared = [].
Proof. exact (prepare_no_warning 3 ex_state 0 None true ex_prepared ex_prepare_eq). Defined.

(** *** Termination *)

Lemma build_groups_total d fuel h root dflt entries groups :
  depth_bounded d h root = true -> d <= fuel ->
  build_groups fuel h root dflt entries groups <> None.
Proof.
  intros Hd Hle. revert groups. induction entries as [|e entries IH]; intros groups; [done|].
  simpl. unfold make_group. destruct (local_args dflt e !! "module") as [v|]; [|done].
  destruct (_module_to_fqn fuel h root v "") as [fqn|] eqn:Hf; [apply IH|].
  by destruct (_module_to_fqn_total d fuel h root v "" Hd Hle).
Qed.

(** X4.  On a finite model [prepare] terminates: with fuel above the depth of
    the model and above the number of modules the traversal pops, it gives a
    result, normal or exceptional. *)
Theorem prepare_terminates d fuel st root cfg apb :
  depth_bounded d (heap st) root = true ->
  d <= fuel -> traversal_size d (heap st) root < fuel ->
  exists r, prepare fuel st root cfg apb = Some r.
Proof.
  intros Hd Hle Hsize. unfold prepare.
  assert (exists entries ev,
            resolve_config fuel (heap st) root cfg apb = Some (entries, ev))
    as (entries & ev & ->).
  { destruct cfg as [c|]; simpl; [eauto|].
    rewrite (discover_returns d) by done. eauto. }
  simpl.
  destruct (build_groups fuel (heap st) root (defaults (self st)) entries
              (module_groups (self st))) as [[groups|e]|] eqn:Hb; [eauto..|].
  by destruct (build_groups_total d fuel (heap st) root (defaults (self st)) entries
                 (module_groups (self st)) Hd Hle).
Qed.

Lemma prepare_terminates_witness :
  exists r, prepare 3 ex_state 0 None true = Some r.
Proof.
  apply (prepare_terminates 2 3 ex_state 0 None true).
  - by vm_compute.
  - lia.
  - apply Nat.ltb_lt. by vm_compute.
Defined.

(** X5.  On a finite model the traversal of auto-discovery returns, with fuel
    for the modules it pops, the list [collect] of the modules found: for
    each module gone through, its supported children in the order they were
    declared, then what its other children give, the last declared first. *)
Theorem discover_in_stack_order d fuel h apb root :
  depth_bounded d h root = true -> traversal_size d h root < fuel ->
  discover fuel h apb [root] [] [] = Some (collect d h root, []) /\
  forall x, x ∈ collect d h root <-> discovered_from h root x.
Proof.
  intros Hd Hfuel. split; [by apply discover_returns|].
  intros x. split; [apply collect_discovered|]. intros Hx. by apply discovered_collect.
Qed.

Lemma discover_in_stack_order_witness :
  discover 3 ex_heap true [0] [] [] = Some ([1; 2], []).
Proof.
  destruct (discover_in_stack_order 2 3 ex_heap true 0) as [Hd _].
  { by vm_compute. }
  { apply Nat.ltb_lt. by vm_compute. }
  rewrite Hd. by vm_compute.
Defined.

(** ** What [prepare] leaves alone, and what it counts *)

(** X6.  [prepare] changes only the modules its registry names: a module that no
    group stands for is, after it, the object it was. *)
Theorem prepare_frame fuel st root cfg apb st' b :
  prepare fuel st root cfg apb = Some (Ok st') ->
  (forall g, g ∈ module_groups (self st') -> g !! "module" <> Some (VModule b)) ->
  mods (heap st') !! b = mods (heap st) !! b.
Proof.
  intros Hp Hb.
  destruct (prepare_Ok _ _ _ _ _ _ Hp) as (s1 & Hh1 & _ & _ & _ & Hrun & _).
  rewrite <- Hh1.
  apply (for_each_invariant (_prepare_body false)
           (fun s => mods (heap s) !! b = mods (heap s1) !! b)
           (module_groups (self st'))) with (s := s1); [|done|done].
  intros s g s2 Hg Hs Hbody.
  destruct (_prepare_body_effect _ _ _ Hbody)
    as (a & m & m' & tr & pb & Hc & _ & _ & Hh & _).
  rewrite Hh. simpl. rewrite lookup_insert_ne; [done|].
  intros ->. by apply (Hb g).
Qed.

Lemma ex_prepare_stray_groups :
  forall g, g ∈ module_groups (self ex_prepared_stray) -> g !! "module" <> Some (VModule 1).
Proof.
  intros g Hg. vm_compute in Hg. apply list_elem_of_singleton in Hg as ->. by vm_compute.
Qed.

Lemma prepare_frame_witness :
  mods (heap ex_prepared_stray) !! 1 = mods (heap ex_state) !! 1.
Proof.
  exact (prepare_frame 3 ex_state 0 (Some [EModule 3]) true ex_prepared_stray 1
           ex_prepare_stray_eq ex_prepare_stray_groups).
Defined.



(** X8.  [prepare] does not overwrite a mask: when [module.mask] reads a tensor
    before, the mask the module holds after is that one, in the namespace it
    was in, and [module.mask] reads the same tensor. *)
Theorem prepare_keeps_mask fuel st root cfg apb st' a m0 t :
  prepare fuel st root cfg apb = Some (Ok st') ->
  mods (heap st) !! a = Some m0 ->
  lookup_attr (heap st) m0 "mask" = Some (VTensor t) ->
  exists m',
    mods (heap st') !! a = Some m' /\
    _parameters m' !! "mask" = _parameters m0 !! "mask" /\
    _buffers m' !! "mask" = _buffers m0 !! "mask" /\
    lookup_attr (heap st') m' "mask" = Some (VTensor t).
Proof.
  intros Hp Hm0 Hmask.
  destruct (prepare_Ok _ _ _ _ _ _ Hp) as (s1 & Hh1 & _ & _ & _ & Hrun & _).
  rewrite <- Hh1 in Hm0.
  assert (exists m', mods (heap st') !! a = Some m' /\
            _parameters m' !! "mask" = _parameters m0 !! "mask" /\
            _buffers m' !! "mask" = _buffers m0 !! "mask") as (m' & Hm' & Hp' & Hb').
  { apply (for_each_invariant (_prepare_body false)
             (fun s => exists m', mods (heap s) !! a = Some m' /\
                _parameters m' !! "mask" = _parameters m0 !! "mask" /\
                _buffers m' !! "mask" = _buffers m0 !! "mask")
             (module_groups (self st'))) with (s := s1); [|eauto|done].
    intros s g s2 _ (m1 & Hm1 & Hp1 & Hb1) Hbody.
    destruct (_prepare_body_effect _ _ _ Hbody)
      as (a' & m & m2 & tr & pb & _ & Hm & _ & Hh & _ & _ & _ & _ & _ & _ & Hpm).
    rewrite Hh. simpl. destruct (decide (a' = a)) as [->|Hne].
    - rewrite lookup_insert_eq. assert (m = m1) as -> by congruence.
      exists m2. split_and!; [done| |].
      + by rewrite (pm_parameters _ _ _ _ _ _ _ Hpm).
      + rewrite (pm_mask_kept _ _ _ _ _ _ _ Hpm); [done|].
        unfold getattr_default, getattr. rewrite Hm1.
        by rewrite (lookup_attr_tensor_stable (heap st) (heap s) m0 m1 "mask" t).
    - rewrite lookup_insert_ne by done. eauto. }
  exists m'. split_and!; try done.
  by apply (lookup_attr_tensor_stable (heap st) (heap st') m0 m' "mask" t).
Qed.

Lemma ex_prepare_masked_eq :
  prepare 3 ex_state_masked 0 None true = Some (Ok ex_prepared_masked).
Proof. vm_compute. reflexivity. Qed.

Lemma prepare_keeps_mask_witness :
  exists m',
    mods (heap ex_prepared_masked) !! 1 = Some m' /\
    _buffers m' !! "mask" = Some (Some (Scalar 7)).
Proof.
  destruct (prepare_keeps_mask 3 ex_state_masked 0 None true ex_prepared_masked 1
              ex_linear_masked (Scalar 7) ex_prepare_masked_eq)
    as (m' & Hm' & _ & Hb & _); [by vm_compute..|].
  exists m'. split; [done|]. rewrite Hb. by vm_compute.
Defined.

(** *** Counting *)

Lemma _prepare_loop_counts a groups s s' m :
  for_each (_prepare_body false) groups s = Ok s' ->
  mods (heap s) !! a = Some m ->
  exists m',
    mods (heap s') !! a = Some m' /\
    length (parametrizations_weight m')
    = length (parametrizations_weight m) + length (groups_of a groups) /\
    length (trans (heap s')) = length (trans (heap s)) + length groups.
Proof.
  revert s m. induction groups as [|g groups IH]; intros s m Hrun Hm; simpl in Hrun.
  - injection Hrun as <-. exists m. unfold groups_of. simpl. split_and!; [done|lia..].
  - destruct (_prepare_body false s g) as [s2|e] eqn:Hbody; [|discriminate].
    destruct (_prepare_body_effect _ _ _ Hbody)
      as (a' & m1 & m2 & tr & pb & Hc & Hm1 & _ & Hh & _ & _ & _ & _ & _ & _ & Hpm).
    unfold groups_of. destruct (decide (a' = a)) as [->|Hne].
    + assert (m1 = m) as -> by congruence.
      destruct (IH s2 m2 Hrun) as (m' & Hm' & Hlen & Htr).
      { rewrite Hh. simpl. apply lookup_insert_eq. }
      exists m'. rewrite filter_cons_True by done. split; [done|].
      unfold groups_of in *.
      rewrite Hlen, Htr, Hh, (pm_chain _ _ _ _ _ _ _ Hpm). simpl.
      rewrite !length_app. simpl. lia.
    + destruct (IH s2 m Hrun) as (m' & Hm' & Hlen & Htr).
      { rewrite Hh. simpl. by rewrite lookup_insert_ne. }
      exists m'. rewrite filter_cons_False by congruence. split; [done|].
      unfold groups_of in *.
      rewrite Hlen, Htr, Hh. simpl. rewrite !length_app. simpl. lia.
Qed.

(** X9.  [prepare] puts on the weight of a module one transform for each group
    of the registry that stands for it: the registry is not deduplicated, so
    a module listed twice, or listed again at a second [prepare], gets as
    many transforms. *)
Theorem prepare_counts_transforms fuel st root cfg apb st' a m0 :
  prepare fuel st root cfg apb = Some (Ok st') ->
  mods (heap st) !! a = Some m0 ->
  exists m',
    mods (heap st') !! a = Some m' /\
    length (parametrizations_weight m')
    = length (parametrizations_weight m0)
      + length (groups_of a (module_groups (self st'))).
Proof.
  intros Hp Hm0.
  destruct (prepare_Ok _ _ _ _ _ _ Hp) as (s1 & Hh1 & _ & _ & _ & Hrun & _).
  rewrite <- Hh1 in Hm0.
  destruct (_prepare_loop_counts a _ _ _ _ Hrun Hm0) as (m' & Hm' & Hlen & _). eauto.
Qed.

Lemma ex_prepare_twice_eq :
  prepare 3 ex_state 0 (Some [EModule 1; EModule 1]) true = Some (Ok ex_prepared_twice).
Proof. vm_compute. reflexivity. Qed.

Lemma prepare_counts_transforms_witness :
  exists m',
    mods (heap ex_prepared_twice) !! 1 = Some m' /\
    length (parametrizations_weight m') = 2.
Proof.
  destruct (prepare_counts_transforms 3 ex_state 0 (Some [EModule 1; EModule 1]) true
              ex_prepared_twice 1 ex_linear ex_prepare_twice_eq)
    as (m' & Hm' & Hlen); [by vm_compute|].
  exists m'. split; [done|]. rewrite Hlen. by vm_compute.
Defined.

(** *** Handles *)

Lemma bias_handle_of_kept s g0 s' pb g hd :
  _prepare_body false s g0 = Ok s' ->
  bias_handle_of s pb g hd -> bias_handle_of s' pb g hd.
Proof.
  intros Hbody (m & t & Hg & Hm & Hhook).
  destruct (_prepare_body_effect _ _ _ Hbody)
    as (a & m1 & m2 & tr & pb' & _ & Hm1 & _ & Hh & _ & _ & _ & _ & _ & _ & Hpm).
  unfold bias_handle_of. rewrite Hh. simpl.
  destruct (decide (a = hd.1)) as [->|Hne].
  - assert (m1 = m) as -> by congruence. exists m2, t.
    rewrite lookup_insert_eq. split_and!; [done|done|].
    destruct (pm_hooks _ _ _ _ _ _ _ Hpm) as (t0 & _ & ->).
    by apply lookup_app_l_Some.
  - exists m, t. by rewrite lookup_insert_ne.
Qed.

Lemma _prepare_loop_handles pb groups pre s s' :
  for_each (_prepare_body false) groups s = Ok s' ->
  prune_bias (self s) = Some pb ->
  Forall2 (bias_handle_of s pb) pre (bias_handles (self s)) ->
  Forall2 (bias_handle_of s' pb) (pre ++ groups) (bias_handles (self s')).
Proof.
  revert pre s. induction groups as [|g groups IH]; intros pre s Hrun Hpb Hall;
    simpl in Hrun.
  - injection Hrun as <-. by rewrite app_nil_r.
  - destruct (_prepare_body false s g) as [s2|e] eqn:Hbody; [|discriminate].
    replace (pre ++ g :: groups) with ((pre ++ [g]) ++ groups)
      by (by rewrite <- app_assoc).
    apply (IH _ s2 Hrun).
    + destruct (_prepare_body_self _ _ _ Hbody) as (_ & -> & _). done.
    + destruct (_prepare_body_effect _ _ _ Hbody)
        as (a & m1 & m2 & tr & pb' & Hc & Hm1 & Hpb' & Hh & _ & _ & _ & _ & _ & Hbh & Hpm).
      assert (pb' = pb) as -> by congruence.
      rewrite Hbh. apply Forall2_app.
      * eapply Forall2_impl; [exact Hall|]. intros g' hd.
        by apply (bias_handle_of_kept s g).
      * constructor; [|constructor].
        destruct (pm_hooks _ _ _ _ _ _ _ Hpm) as (t0 & _ & Hhooks).
        exists m2, t0. simpl. rewrite Hh. simpl. rewrite lookup_insert_eq.
        split_and!; [done|done|]. rewrite Hhooks, app_assoc.
        rewrite length_app. simpl.
        replace (pred (length (_forward_hooks m1 ++
                   (if isinstance (heap s) (VModule a) NEEDS_ZEROS then []
                    else [ActivationReconstruction t0])) + 1))
          with (length (_forward_hooks m1 ++
                   (if isinstance (heap s) (VModule a) NEEDS_ZEROS then []
                    else [ActivationReconstruction t0])) + 0) by lia.
        by rewrite lookup_app_r, Nat.add_0_r, Nat.sub_diag by lia.
Qed.

(** X10.  After [prepare], [bias_handles] holds one handle for each group of the
    registry, in the order of the registry, and each is good: it names the
    module of its group and the place of a bias hook, made with the
    [also_prune_bias] of the call, among that module's hooks.  The handles of
    an earlier [prepare] are dropped from the list. *)
Theorem prepare_bias_handles fuel st root cfg apb st' :
  prepare fuel st root cfg apb = Some (Ok st') ->
  Forall2 (bias_handle_of st' apb) (module_groups (self st')) (bias_handles (self st')).
Proof.
  intros Hp. unfold prepare in Hp.
  destruct (resolve_config _ _ _ _ _) as [[entries ev]|]; [|discriminate].
  simpl in Hp.
  destruct (build_groups _ _ _ _ _ _) as [[groups|e]|] eqn:Hbg; try discriminate.
  injection Hp as Hp. unfold _prepare in Hp. simpl in Hp.
  match type of Hp with for_each _ _ ?s = _ => set (s1 := s) in * end.
  assert (module_groups (self st') = groups) as ->.
  { apply (for_each_invariant (_prepare_body false)
             (fun s => module_groups (self s) = groups) groups) with (s := s1);
      [|reflexivity|exact Hp].
    intros s x s' _ Hs Hb. destruct (_prepare_body_self _ _ _ Hb) as (-> & _). done. }
  apply (_prepare_loop_handles apb groups [] s1 st' Hp); [reflexivity|constructor].
Qed.

Lemma prepare_bias_handles_witness :
  Forall2 (bias_handle_of ex_prepared true) (module_groups (self ex_prepared))
    (bias_handles (self ex_prepared)).
Proof. exact (prepare_bias_handles 3 ex_state 0 None true ex_prepared ex_prepare_eq). Defined.

(** ** [manual_mask_update] *)

(** X11.  [manual_mask_update] only grows the pruned set of transform objects:
    modules, the pruner and the warnings are as they were, there are as many
    transform objects as before, each of the class and built from the tensor
    it was, and every unit that was marked as pruned still is. *)
Theorem manual_mask_update_only_grows st module pruned st' :
  manual_mask_update st module pruned = Ok st' ->
  mods (heap st') = mods (heap st) /\ self st' = self st /\ events st' = events st /\
  length (trans (heap st')) = length (trans (heap st)) /\
  forall t tr, trans (heap st) !! t = Some tr ->
    exists tr', trans (heap st') !! t = Some tr' /\
      t_cls tr' = t_cls tr /\ original_outputs tr' = original_outputs tr /\
      pruned_outputs tr ⊆ pruned_outputs tr'.
Proof.
  unfold manual_mask_update. intros Hm.
  apply bind_Ok in Hm as (t0 & _ & Hm).
  destruct (trans (heap st) !! t0) as [tr0|] eqn:Ht0; [|discriminate].
  injection Hm as <-. simpl. split_and!; try done.
  - by rewrite length_insert.
  - intros t tr Ht. destruct (decide (t = t0)) as [->|Hne].
    + assert (tr = tr0) as -> by congruence.
      exists (with_pruned tr0 (pruned_outputs tr0 ∪ pruned)).
      rewrite list_lookup_insert_eq by (by eapply lookup_lt_Some).
      split_and!; try done. simpl. set_solver.
    + exists tr. by rewrite list_lookup_insert_ne.
Qed.

Lemma ex_update_eq : manual_mask_update ex_prepared (VModule 1) {[ 0 ]} = Ok ex_updated.
Proof. vm_compute. reflexivity. Qed.

Lemma manual_mask_update_only_grows_witness :
  mods (heap ex_updated) = mods (heap ex_prepared) /\
  length (trans (heap ex_updated)) = length (trans (heap ex_prepared)).
Proof.
  destruct (manual_mask_update_only_grows ex_prepared (VModule 1) {[ 0 ]} ex_updated
              ex_update_eq) as (Hmods & _ & _ & Hlen & _).
  by split.
Defined.

(** X12.  [manual_mask_update] accumulates: giving the units [P] and then the
    units [Q] leaves the state that giving [P ∪ Q] at once leaves. *)
Theorem manual_mask_update_accumulates st module P Q st1 :
  manual_mask_update st module P = Ok st1 ->
  manual_mask_update st1 module Q = manual_mask_update st module (P ∪ Q).
Proof.
  unfold manual_mask_update. intros Hm.
  apply bind_Ok in Hm as (t0 & Ht0 & Hm).
  destruct (trans (heap st) !! t0) as [tr0|] eqn:Htr0; [|discriminate].
  injection Hm as <-.
  assert (parametrizations_weight_0
            (heap (with_heap st
               {| mods := mods (heap st);
                  trans := <[t0 := with_pruned tr0 (pruned_outputs tr0 ∪ P)]>
                             (trans (heap st)) |})) module = Ok t0) as ->.
  { revert Ht0. unfold parametrizations_weight_0, the_module. by simpl. }
  rewrite Ht0. simpl. rewrite Htr0.
  rewrite list_lookup_insert_eq by (by eapply lookup_lt_Some).
  rewrite list_insert_insert_eq. unfold with_pruned, with_heap. simpl.
  by rewrite (assoc_L (∪)).
Qed.

Lemma manual_mask_update_accumulates_witness :
  manual_mask_update ex_updated (VModule 1) {[ 1 ]}
  = manual_mask_update ex_prepared (VModule 1) ({[ 0 ]} ∪ {[ 1 ]}).
Proof.
  exact (manual_mask_update_accumulates ex_prepared (VModule 1) {[ 0 ]} {[ 1 ]} ex_updated
           ex_update_eq).
Defined.

(** *** The transform the hooks hold *)

Section shared_transform.
Context (a : addr) (m0 : Module).
Context (Hchain0 : parametrizations_weight m0 = []).

Lemma _prepare_body_shares_miss s cfg s' :
  _prepare_body false s cfg = Ok s' -> mods (heap s) !! a = Some m0 ->
  cfg !! "module" <> Some (VModule a) -> mods (heap s') !! a = Some m0.
Proof.
  intros Hb Hm Hmiss.
  destruct (_prepare_body_effect _ _ _ Hb)
    as (a' & m & m' & tr & pb' & Hc & _ & _ & Hh & _).
  assert (a' <> a) by congruence.
  rewrite Hh. simpl. by rewrite lookup_insert_ne.
Qed.

Lemma _prepare_body_shares_hit s cfg s' :
  _prepare_body false s cfg = Ok s' -> mods (heap s) !! a = Some m0 ->
  cfg !! "module" = Some (VModule a) -> hooks_share a m0 s'.
Proof.
  intros Hb Hm Hhit.
  destruct (_prepare_body_effect _ _ _ Hb)
    as (a' & m & m' & tr & pb' & Hc & Hma & _ & Hh & _ & _ & _ & _ & _ & _ & Hpm).
  assert (a' = a) as -> by congruence. assert (m = m0) as -> by congruence.
  destruct (pm_hooks _ _ _ _ _ _ _ Hpm) as (t0 & Ht0 & Hhooks).
  pose proof (pm_chain _ _ _ _ _ _ _ Hpm) as Hch. rewrite Hchain0 in Hch. simpl in Hch.
  rewrite Hch in Ht0. injection Ht0 as <-.
  eexists m', (length (trans (heap s))), tr, _. rewrite Hh. simpl.
  rewrite lookup_insert_eq, Hch. split_and!; [done|done| | |exact Hhooks|].
  - by rewrite lookup_app_r, Nat.sub_diag.
  - apply (pm_pruned _ _ _ _ _ _ _ Hpm).
  - apply Forall_app. split; [by destruct (isinstance _ _ _); repeat constructor|].
    by repeat constructor.
Qed.

Lemma _prepare_body_shares_keep s cfg s' :
  _prepare_body false s cfg = Ok s' -> hooks_share a m0 s -> hooks_share a m0 s'.
Proof.
  intros Hb (m1 & t & tr1 & new & Hm1 & Hhead & Htr1 & Hpr & Hhooks & Hall).
  destruct (_prepare_body_effect _ _ _ Hb)
    as (a' & m & m' & tr & pb' & Hc & Hma & _ & Hh & _ & _ & _ & _ & _ & _ & Hpm).
  assert ((trans (heap s) ++ [tr]) !! t = Some tr1) as Hold by (by apply lookup_app_l_Some).
  destruct (decide (a' = a)) as [->|Hne].
  - assert (m = m1) as -> by congruence.
    destruct (pm_hooks _ _ _ _ _ _ _ Hpm) as (t0 & Ht0 & Hhooks').
    pose proof (pm_chain _ _ _ _ _ _ _ Hpm) as Hch.
    assert (t0 = t) as ->.
    { rewrite Hch in Ht0. destruct (parametrizations_weight m1); [done|].
      simpl in *. congruence. }
    eexists m', t, tr1, _. rewrite Hh. simpl. rewrite lookup_insert_eq.
    split_and!; [done|done|done|done|by rewrite Hhooks', Hhooks, <- app_assoc|].
    apply Forall_app. split; [done|].
    apply Forall_app. split; [by destruct (isinstance _ _ _); repeat constructor|].
    by repeat constructor.
  - exists m1, t, tr1, new. rewrite Hh. simpl. by rewrite lookup_insert_ne.
Qed.
End shared_transform.

(** X13.  The set [manual_mask_update] writes is the set the hooks read.  For a
    module of a group that had nothing on its weight, after [prepare]
    every hook that was added to it closes over one transform object, and
    [manual_mask_update] on the module succeeds and marks, in that very
    object, exactly the units it is given; modules and all other transform
    objects are as they were. *)
Theorem manual_mask_update_reaches_hooks fuel st root cfg apb st' g a m0 pruned :
  prepare fuel st root cfg apb = Some (Ok st') ->
  g ∈ module_groups (self st') -> g !! "module" = Some (VModule a) ->
  mods (heap st) !! a = Some m0 -> parametrizations_weight m0 = [] ->
  exists m' t tr new st'',
    mods (heap st') !! a = Some m' /\
    _forward_hooks m' = _forward_hooks m0 ++ new /\
    Forall (fun hk => hook_transform hk = t) new /\
    trans (heap st') !! t = Some tr /\
    manual_mask_update st' (VModule a) pruned = Ok st'' /\
    mods (heap st'') = mods (heap st') /\
    trans (heap st'') !! t = Some (with_pruned tr pruned) /\
    forall t', t' <> t -> trans (heap st'') !! t' = trans (heap st') !! t'.
Proof.
  intros Hp Hg Hga Hm0 Hch0.
  destruct (prepare_Ok _ _ _ _ _ _ Hp) as (s1 & Hh1 & _ & _ & _ & Hrun & _).
  rewrite <- Hh1 in Hm0.
  assert (hooks_share a m0 st') as (m' & t & tr & new & Hm' & Hhead & Htr & Hpr & Hhooks & Hall).
  { eapply (for_each_first_hit (_prepare_body false)
              (fun s => mods (heap s) !! a = Some m0) (hooks_share a m0)
              (fun g => g !! "module" = Some (VModule a))); [| | |exact Hrun|exact Hm0|eauto].
    - apply _prepare_body_shares_miss.
    - by apply _prepare_body_shares_hit.
    - apply _prepare_body_shares_keep. }
  exists m', t, tr, new. eexists. split_and!; [done|done|done|done| | | |].
  - unfold manual_mask_update, parametrizations_weight_0.
    rewrite (the_module_at _ _ _ Hm'). simpl.
    destruct (parametrizations_weight m') as [|t1 chain]; [done|].
    simpl in Hhead. injection Hhead as ->. simpl. rewrite Htr. reflexivity.
  - done.
  - simpl. rewrite list_lookup_insert_eq by (by eapply lookup_lt_Some).
    by rewrite Hpr, (left_id_L ∅ (∪)).
  - intros t' Hne. simpl. by rewrite list_lookup_insert_ne.
Qed.

Lemma manual_mask_update_reaches_hooks_witness :
  exists m' t new,
    mods (heap ex_prepared) !! 1 = Some m' /\
    _forward_hooks m' = new /\
    Forall (fun hk => hook_transform hk = t) new /\
    pruned_outputs <$> trans (heap ex_updated) !! t = Some {[ 0 ]}.
Proof.
  destruct (manual_mask_update_reaches_hooks 3 ex_state 0 None true ex_prepared
              ex_group_fc 1 ex_linear {[ 0 ]} ex_prepare_eq ex_group_fc_registered)
    as (m' & t & tr & new & st'' & Hm' & Hhooks & Hall & _ & Hupd & _ & Ht & _);
    [by vm_compute..|].
  exists m', t, new. split_and!; [done|done|done|].
  rewrite ex_update_eq in Hupd. injection Hupd as <-. by rewrite Ht.
Defined.

(** ** [squash_mask]: what it leaves, and what it spends *)



Lemma squash_loop_spends a groups s s' :
  for_each (squash_mask_body false) groups s = Ok s' ->
  (exists g, g ∈ groups /\ g !! "module" = Some (VModule a)) ->
  exists m, mods (heap s') !! a = Some m /\ parametrizations_weight m = [].
Proof.
  intros Hrun Hex.
  eapply (for_each_first_hit (squash_mask_body false) (fun _ => True)
            (fun s => exists m, mods (heap s) !! a = Some m /\ parametrizations_weight m = [])
            (fun g => g !! "module" = Some (VModule a))); [done| | |exact Hrun|done|done].
  - intros s1 g s2 Hb _ Hhit.
    destruct (squash_mask_body_effect _ _ _ Hb)
      as (a' & m & w & m' & Hc & _ & _ & _ & Hh & _ & _ & _ & _ & Hch & _).
    assert (a' = a) as -> by congruence.
    exists m'. rewrite Hh. by rewrite set_mod_lookup.
  - intros s1 g s2 Hb (m1 & Hm1 & Hch1).
    destruct (squash_mask_body_effect _ _ _ Hb)
      as (a' & m & w & m' & Hc & Hma & Hne & _ & Hh & _).
    destruct (decide (a' = a)) as [->|Hneq]; [congruence|].
    exists m1. rewrite Hh. unfold set_mod. simpl. by rewrite lookup_insert_ne.
Qed.

Lemma squash_mask_self st st' :
  squash_mask false st = Ok st' -> self st' = self st.
Proof.
  unfold squash_mask. intros Hsq.
  apply (for_each_invariant (squash_mask_body false) (fun s => self s = self st)
           (module_groups (self st))) with (s := st); [|done|done].
  intros s g s2 _ Hs Hb.
  destruct (squash_mask_body_effect _ _ _ Hb) as (a & m & w & m' & _ & _ & _ & _ & _ & Hs2 & _).
  congruence.
Qed.

Lemma squash_mask_body_module st g st' :
  squash_mask_body false st g = Ok st' -> exists a, g !! "module" = Some (VModule a).
Proof.
  intros Hb. destruct (squash_mask_body_effect _ _ _ Hb) as (a & m & w & m' & Hc & _). eauto.
Qed.

Lemma squash_mask_body_spent st g a m :
  g !! "module" = Some (VModule a) -> mods (heap st) !! a = Some m ->
  parametrizations_weight m = [] ->
  squash_mask_body false st g = Raise ValueError.
Proof.
  intros Hg Hm Hch. unfold squash_mask_body, group_module, dict_item. rewrite Hg. simpl.
  unfold remove_parametrizations. rewrite (the_module_at _ _ _ Hm). simpl.
  by rewrite Hch.
Qed.

(** X15.  [squash_mask] spends the registry it goes through.  After it, for the
    module of any group, [manual_mask_update] raises [AttributeError] (the
    module has no [parametrizations] any more), and a second [squash_mask]
    raises [ValueError] at the first group, whatever the registry holds. *)
Theorem squash_mask_spends st st' g a pruned :
  squash_mask false st = Ok st' ->
  g ∈ module_groups (self st) -> g !! "module" = Some (VModule a) ->
  manual_mask_update st' (VModule a) pruned = Raise AttributeError /\
  squash_mask false st' = Raise ValueError.
Proof.
  intros Hsq Hg Hga.
  pose proof (squash_mask_self _ _ Hsq) as Hself.
  split.
  - destruct (squash_loop_spends a _ _ _ Hsq) as (m & Hm & Hch); [eauto|].
    unfold manual_mask_update, parametrizations_weight_0.
    rewrite (the_module_at _ _ _ Hm). simpl. by rewrite Hch.
  - unfold squash_mask in *. rewrite Hself.
    destruct (module_groups (self st)) as [|g1 groups] eqn:Hgs; [by apply elem_of_nil in Hg|].
    assert (exists a1, g1 !! "module" = Some (VModule a1)) as (a1 & Hg1).
    { simpl in Hsq. destruct (squash_mask_body false st g1) eqn:Hb; [|discriminate].
      by eapply squash_mask_body_module. }
    destruct (squash_loop_spends a1 _ _ _ Hsq) as (m & Hm & Hch).
    { exists g1. split; [apply list_elem_of_here|done]. }
    simpl. by rewrite (squash_mask_body_spent _ _ _ _ Hg1 Hm Hch).
Qed.

Lemma squash_mask_spends_witness :
  manual_mask_update ex_squashed (VModule 1) {[ 0 ]} = Raise AttributeError /\
  squash_mask false ex_squashed = Raise ValueError.
Proof.
  apply (squash_mask_spends ex_prepared ex_squashed ex_group_fc 1 {[ 0 ]} ex_squash_eq);
    [apply ex_group_fc_registered|by vm_compute].
Defined.

(** X16.  A registry that holds a module twice cannot be squashed: the first of
    its groups takes the whole chain off the weight, so [squash_mask] does
    not return normally. *)
Theorem squash_mask_duplicate st l1 g1 l2 g2 l3 a st' :
  module_groups (self st) = l1 ++ g1 :: l2 ++ g2 :: l3 ->
  g1 !! "module" = Some (VModule a) -> g2 !! "module" = Some (VModule a) ->
  squash_mask false st <> Ok st'.
Proof.
  intros Hgs Hg1 Hg2 Hsq. unfold squash_mask in Hsq. rewrite Hgs in Hsq.
  replace (l1 ++ g1 :: l2 ++ g2 :: l3) with ((l1 ++ g1 :: l2) ++ g2 :: l3) in Hsq
    by (by rewrite <- app_assoc).
  rewrite for_each_app in Hsq.
  destruct (for_each (squash_mask_body false) (l1 ++ g1 :: l2) st) as [s1|e] eqn:Hfirst;
    [|discriminate].
  destruct (squash_loop_spends a _ _ _ Hfirst) as (m & Hm & Hch).
  { exists g1. split; [|done]. apply elem_of_app. right. apply list_elem_of_here. }
  simpl in Hsq. by rewrite (squash_mask_body_spent _ _ _ _ Hg2 Hm Hch) in Hsq.
Qed.

Lemma squash_mask_duplicate_witness :
  squash_mask false ex_prepared_twice <> Ok ex_squashed.
Proof.
  apply (squash_mask_duplicate ex_prepared_twice [] ex_group_fc [] ex_group_fc [] 1);
    by vm_compute.
Defined.

(** ** The resolver: when there is no path *)

Lemma child_path_depth d h a names b :
  depth_bounded d h a = true -> child_path h a names b ->
  depth_bounded (d - length names) h b = true.
Proof.
  intros Hd Hpath. revert d Hd.
  induction Hpath as [a|a name c names b Hchild _ IH]; intros d Hd.
  - by rewrite Nat.sub_0_r.
  - destruct d as [|d]; [done|].
    destruct (named_children_complete _ _ _ _ Hchild) as [name' Hin].
    apply (IH d). by eapply depth_bounded_children.
Qed.

Lemma child_path_acyclic d h a names :
  depth_bounded d h a = true -> child_path h a names a -> names = [].
Proof.
  revert names. induction (lt_wf d) as [d _ IH]. intros names Hd Hpath.
  destruct names as [|name names]; [done|]. exfalso.
  destruct d as [|d]; [done|].
  pose proof (child_path_depth _ _ _ _ _ Hd Hpath) as Hd'.
  by specialize (IH (S d - length (name :: names)) ltac:(simpl; lia) _ Hd' Hpath).
Qed.

(** X17.  In a finite model, given fuel for its depth, [_module_to_fqn] returns
    Python's [None] exactly for the modules that are not below the root. *)
Theorem _module_to_fqn_none_iff d fuel h root b prefix :
  depth_bounded d h root = true -> d <= fuel ->
  _module_to_fqn fuel h root (VModule b) prefix = Some None <->
  forall names, names <> [] -> ~ child_path h root names b.
Proof.
  intros Hd Hle. split.
  - intros Hnone names Hne Hpath.
    destruct (_module_to_fqn_finds d fuel h root names b prefix Hd Hle Hne Hpath) as [p Hp].
    congruence.
  - intros Hno.
    destruct (_module_to_fqn fuel h root (VModule b) prefix) as [[p|]|] eqn:Hp; [|done|].
    + destruct (_module_to_fqn_sound _ _ _ _ _ _ Hp) as (names & Hne & _ & Hpath).
      by destruct (Hno names Hne).
    + by destruct (_module_to_fqn_total d fuel h root (VModule b) prefix Hd Hle).
Qed.

Lemma _module_to_fqn_none_iff_witness :
  _module_to_fqn 3 ex_heap 0 (VModule 3) "" = Some None <->
  forall names, names <> [] -> ~ child_path ex_heap 0 names 3.
Proof. apply (_module_to_fqn_none_iff 2 3 ex_heap 0 3 ""); [by vm_compute|lia]. Defined.

(** X18.  The root of a finite model has no path in it: [_module_to_fqn(model,
    model)] is [None], not the empty path. *)
Theorem _module_to_fqn_root d fuel h root prefix :
  depth_bounded d h root = true -> d <= fuel ->
  _module_to_fqn fuel h root (VModule root) prefix = Some None.
Proof.
  intros Hd Hle.
  destruct (_module_to_fqn fuel h root (VModule root) prefix) as [[p|]|] eqn:Hp; [|done|].
  - destruct (_module_to_fqn_sound _ _ _ _ _ _ Hp) as (names & Hne & _ & Hpath).
    by destruct (Hne (child_path_acyclic _ _ _ _ Hd Hpath)).
  - by destruct (_module_to_fqn_total d fuel h root (VModule root) prefix Hd Hle).
Qed.

Lemma _module_to_fqn_root_witness :
  _module_to_fqn 3 ex_heap 0 (VModule 0) "" = Some None.
Proof. apply (_module_to_fqn_root 2 3 ex_heap 0 ""); [by vm_compute|lia]. Defined.

Lemma split_dot_cons rest : split dot (String dot rest) = "" :: split dot rest.
Proof. simpl. by rewrite ?decide_True. Qed.

(** X19.  A path as [_module_to_fqn] returns it for the empty prefix begins with
    the separator, so [_fqn_to_module] does not take it: in a model that
    binds nothing under the empty name it resolves to [None], whatever the
    module. *)
Theorem _module_to_fqn_raw_unresolved fuel h root b p :
  _module_to_fqn fuel h root (VModule b) "" = Some (Some p) ->
  getattr_default h (VModule root) "" = VNone ->
  exists rest, p = String dot rest /\
    _fqn_to_module h (VModule root) (Some p) = Ok VNone.
Proof.
  intros Hp Hempty.
  destruct (_module_to_fqn_sound _ _ _ _ _ _ Hp) as (names & Hne & -> & _).
  destruct names as [|name names]; [done|].
  rewrite string_app_nil_l.
  change (dotted (name :: names)) with ("." +:+ name +:+ dotted names).
  change ("." +:+ name +:+ dotted names) with (String dot (name +:+ dotted names)).
  eexists. split; [reflexivity|].
  unfold _fqn_to_module. rewrite split_dot_cons. simpl.
  by rewrite Hempty.
Qed.

Lemma _module_to_fqn_raw_unresolved_witness :
  exists rest,
    ".fc" = String dot rest /\
    _fqn_to_module ex_heap (VModule 0) (Some ".fc") = Ok VNone.
Proof.
  apply (_module_to_fqn_raw_unresolved 3 ex_heap 0 1 ".fc"); by vm_compute.
Defined.

(** ** The tree under [prepare] *)




















(** ** [_fqn_to_module]: a path in two parts *)

Lemma split_app_dot p q :
  split dot (p +:+ String dot q) = split dot p ++ split dot q.
Proof.
  induction p as [|c p IH].
  - rewrite string_app_nil_l. simpl. by rewrite ?decide_True.
  - rewrite string_app_cons. simpl. destruct (decide (c = dot)) as [->|Hc].
    + by rewrite IH.
    + rewrite IH. pose proof (split_nonempty dot p) as Hne.
      by destruct (split dot p).
Qed.

Lemma fqn_walk_app h v l1 l2 a :
  fqn_walk h v l1 = VModule a -> fqn_walk h v (l1 ++ l2) = fqn_walk h (VModule a) l2.
Proof.
  revert v. induction l1 as [|name l1 IH]; intros v; simpl; [by intros ->|].
  destruct (getattr_default h v name) eqn:Hg; try done; apply IH.
Qed.

(** X22.  Resolving goes part by part: when the path [p] resolves from a module
    to a module, the path [p.q] resolves from the first to what [q]
    resolves to from the second. *)
Theorem _fqn_to_module_compose h v p q a :
  _fqn_to_module h v (Some p) = Ok (VModule a) ->
  _fqn_to_module h v (Some (p +:+ "." +:+ q)) = _fqn_to_module h (VModule a) (Some q).
Proof.
  unfold _fqn_to_module. intros [= Hp].
  change ("." +:+ q) with (String dot q).
  by rewrite split_app_dot, (fqn_walk_app _ _ _ _ _ Hp).
Qed.

Lemma _fqn_to_module_compose_witness :
  _fqn_to_module ex_heap (VModule 0) (Some ("fc" +:+ "." +:+ "weight"))
  = _fqn_to_module ex_heap (VModule 1) (Some "weight").
Proof. apply (_fqn_to_module_compose ex_heap (VModule 0) "fc" "weight" 1). by vm_compute. Defined.
